(** * wireguard-mesh client: overlay addresses and peer reconciliation

    A shallow embedding of [internal/wg] (the [State] type, [getOverlayAddr],
    [Peer.toPeerConfig], [New], [AddPeers], [DownInterface], ...) and of
    [cmd/client] ([fetchPeers], [updatePeers]).

    Bytes are integers ([Z]) in [0, 256); a Go slice is a list and the nil
    slice is the empty list ([len(nil) = 0]); an out-of-range index, which
    makes the Go runtime panic, is [None]. *)

From Stdlib Require Import ZArith Bool String Ascii List Lia.
Import ListNotations.
Local Open Scope Z_scope.

(** ** Slices *)

Definition byte := Z.

Definition len {A} (l : list A) : Z := Z.of_nat (length l).

(** [l[i]], panicking outside [0, len l). *)
Definition index {A} (l : list A) (i : Z) : option A :=
  if (0 <=? i) && (i <? len l) then nth_error l (Z.to_nat i) else None.

Fixpoint set_nth {A} (l : list A) (n : nat) (v : A) : list A :=
  match l, n with
  | [], _ => []
  | _ :: t, O => v :: t
  | h :: t, S n' => h :: set_nth t n' v
  end.

(** The last element of a slice. *)
Fixpoint final {A} (l : list A) : option A :=
  match l with
  | [] => None
  | [a] => Some a
  | _ :: t => final t
  end.

(** [l[i] = v], panicking outside [0, len l). *)
Definition store {A} (l : list A) (i : Z) (v : A) : option (list A) :=
  if (0 <=? i) && (i <? len l) then Some (set_nth l (Z.to_nat i) v) else None.

(** ** Package [net]: the parts of the Go library the program calls *)

Module net.

Definition IP_t := list byte.
Definition IPMask := list byte.

Record IPNet := { IP : IP_t; Mask : IPMask }.

Record UDPAddr := { UDP_IP : IP_t; UDP_Port : Z }.
Record TCPAddr := { TCP_IP : IP_t; TCP_Port : Z }.

Definition IPv4len : Z := 4.
Definition IPv6len : Z := 16.

(** [for v&0x80 != 0 { n++; v <<= 1 }] on an 8-bit [v]: eight shifts
    empty the byte, so eight rounds are all the loop can take. *)
Fixpoint leadingOnes (rounds : nat) (v n : Z) : Z * Z :=
  match rounds with
  | O => (v, n)
  | S r =>
      if Z.land v 128 =? 0 then (v, n)
      else leadingOnes r (Z.land (Z.shiftl v 1) 255) (n + 1)
  end.

(** [simpleMaskLength]: the number of leading ones of a mask made of ones
    followed by zeros, -1 for any other mask. *)
Fixpoint simpleMaskLength_from (mask : IPMask) (n : Z) : Z :=
  match mask with
  | [] => n
  | v :: rest =>
      if v =? 255 then simpleMaskLength_from rest (n + 8)
      else
        let '(v', n') := leadingOnes 8 v n in
        if negb (v' =? 0) then -1
        else if forallb (Z.eqb 0) rest then n' else -1
  end.

Definition simpleMaskLength (mask : IPMask) : Z := simpleMaskLength_from mask 0.

(** [IPMask.Size]: (ones, bits), or (0, 0) for a mask that is not canonical. *)
Definition Size (m : IPMask) : Z * Z :=
  let ones := simpleMaskLength m in
  if ones =? -1 then (0, 0) else (ones, len m * 8).

Fixpoint CIDRMask_bytes (l : nat) (n : Z) : IPMask :=
  match l with
  | O => []
  | S l' =>
      if 8 <=? n then 255 :: CIDRMask_bytes l' (n - 8)
      else Z.lxor (Z.shiftr 255 n) 255 :: CIDRMask_bytes l' 0
  end.

(** [CIDRMask]: [ones] one bits followed by zeros, [bits] long; nil when
    [bits] is neither 32 nor 128 or [ones] is out of range. *)
Definition CIDRMask (ones bits : Z) : IPMask :=
  if negb (bits =? 8 * IPv4len) && negb (bits =? 8 * IPv6len) then []
  else if (ones <? 0) || (bits <? ones) then []
  else CIDRMask_bytes (Z.to_nat (bits / 8)) ones.

End net.

Definition Key := list byte.

Definition Key_eq_dec : forall a b : Key, {a = b} + {a <> b} := list_eq_dec Z.eq_dec.

(** ** Package [crypto/sha256] (FIPS 180-4), on 32-bit words held in [Z] *)

Module sha256.

Definition add32 (a b : Z) : Z := (a + b) mod 4294967296.

Definition rotr (n x : Z) : Z :=
  Z.lor (Z.shiftr x n) (Z.land (Z.shiftl x (32 - n)) 0xffffffff).

Definition xor3 (a b c : Z) : Z := Z.lxor (Z.lxor a b) c.

Definition Ch (x y z : Z) : Z :=
  Z.lxor (Z.land x y) (Z.land (Z.lxor x 0xffffffff) z).
Definition Maj (x y z : Z) : Z :=
  xor3 (Z.land x y) (Z.land x z) (Z.land y z).
Definition bsig0 (x : Z) : Z := xor3 (rotr 2 x) (rotr 13 x) (rotr 22 x).
Definition bsig1 (x : Z) : Z := xor3 (rotr 6 x) (rotr 11 x) (rotr 25 x).
Definition ssig0 (x : Z) : Z := xor3 (rotr 7 x) (rotr 18 x) (Z.shiftr x 3).
Definition ssig1 (x : Z) : Z := xor3 (rotr 17 x) (rotr 19 x) (Z.shiftr x 10).

(** The constants are fractional parts of roots of the first primes: of
    the cube roots of the first 64 for the round constants, of the square
    roots of the first 8 for the initial hash value. *)
Definition is_prime (n : nat) : bool :=
  forallb (fun d => negb (Nat.eqb (Nat.modulo n d) 0)) (seq 2 (n - 2)).

Definition primes : list Z := map Z.of_nat (firstn 64 (filter is_prime (seq 2 310))).

(** The integer cube root, found bit by bit from bit [n-1] down. *)
Fixpoint icbrt (n : nat) (x r : Z) : Z :=
  match n with
  | O => r
  | S n' =>
      let c := r + 2 ^ Z.of_nat n' in
      icbrt n' x (if c * c * c <=? x then c else r)
  end.

Definition K : list Z :=
  Eval vm_compute in map (fun p => icbrt 36 (p * 2 ^ 96) 0 mod 2 ^ 32) primes.

Record hash := { h0 : Z; h1 : Z; h2 : Z; h3 : Z; h4 : Z; h5 : Z; h6 : Z; h7 : Z }.

Definition frac_sqrt (p : Z) : Z := Z.sqrt (p * 2 ^ 64) mod 2 ^ 32.

Definition init : hash :=
  Eval vm_compute in
  {| h0 := frac_sqrt 2; h1 := frac_sqrt 3; h2 := frac_sqrt 5; h3 := frac_sqrt 7;
     h4 := frac_sqrt 11; h5 := frac_sqrt 13; h6 := frac_sqrt 17; h7 := frac_sqrt 19 |}.

Fixpoint words (bs : list Z) : list Z :=
  match bs with
  | a :: b :: c :: d :: t =>
      (Z.shiftl a 24 + Z.shiftl b 16 + Z.shiftl c 8 + d) :: words t
  | _ => []
  end.

(** The message schedule, newest word first. *)
Fixpoint schedule (n : nat) (ws : list Z) : list Z :=
  match n with
  | O => ws
  | S n' =>
      let w := add32 (add32 (ssig1 (nth 1 ws 0)) (nth 6 ws 0))
                     (add32 (ssig0 (nth 14 ws 0)) (nth 15 ws 0)) in
      schedule n' (w :: ws)
  end.

Definition round (s : hash) (k w : Z) : hash :=
  let t1 := add32 (add32 (add32 (h7 s) (bsig1 (h4 s))) (Ch (h4 s) (h5 s) (h6 s)))
                  (add32 k w) in
  let t2 := add32 (bsig0 (h0 s)) (Maj (h0 s) (h1 s) (h2 s)) in
  {| h0 := add32 t1 t2; h1 := h0 s; h2 := h1 s; h3 := h2 s;
     h4 := add32 (h3 s) t1; h5 := h4 s; h6 := h5 s; h7 := h6 s |}.

Fixpoint rounds (ks ws : list Z) (s : hash) : hash :=
  match ks, ws with
  | k :: ks', w :: ws' => rounds ks' ws' (round s k w)
  | _, _ => s
  end.

Definition block (s : hash) (chunk : list Z) : hash :=
  let w := rev (schedule 48 (rev (words chunk))) in
  let r := rounds K w s in
  {| h0 := add32 (h0 s) (h0 r); h1 := add32 (h1 s) (h1 r);
     h2 := add32 (h2 s) (h2 r); h3 := add32 (h3 s) (h3 r);
     h4 := add32 (h4 s) (h4 r); h5 := add32 (h5 s) (h5 r);
     h6 := add32 (h6 s) (h6 r); h7 := add32 (h7 s) (h7 r) |}.

Fixpoint blocks (n : nat) (bs : list Z) (s : hash) : hash :=
  match n with
  | O => s
  | S n' => blocks n' (skipn 64 bs) (block s (firstn 64 bs))
  end.

Definition be (width : nat) (x : Z) : list Z :=
  map (fun i => Z.land (Z.shiftr x (8 * Z.of_nat i)) 255) (rev (seq 0 width)).

Definition pad (msg : list Z) : list Z :=
  let l := Z.of_nat (length msg) in
  map (fun b => Z.land b 255) msg ++ [128]
    ++ repeat 0 (Z.to_nat ((55 - l) mod 64)) ++ be 8 (8 * l).

Definition Sum256 (msg : list Z) : list Z :=
  let p := pad msg in
  let s := blocks (Nat.div (length p) 64) p init in
  be 4 (h0 s) ++ be 4 (h1 s) ++ be 4 (h2 s) ++ be 4 (h3 s)
    ++ be 4 (h4 s) ++ be 4 (h5 s) ++ be 4 (h6 s) ++ be 4 (h7 s).

End sha256.

(** ** Overlay address derivation *)

(** Number of rounds of the copy loop of [getOverlayAddr]: [i] runs from 1
    while [i <= (size-bits)/8] (Go's [/] truncates). *)
Definition hostBytes (ipnet : net.IPNet) : nat :=
  let '(bits, size) := net.Size (net.Mask ipnet) in
  Z.to_nat (Z.quot (size - bits) 8).

Section Derive.

(** [sha256.Sum256]; the digest is a [32]byte array. *)
Variable Sum256 : list byte -> list byte.

(** The body of [for i := 1; i <= c; i++ { ip[len(ip)-i] = hb[len(hb)-i] }],
    [todo] rounds from [i]. *)
Fixpoint overwriteTail (todo : nat) (i : Z) (ip hb : list byte) : option (list byte) :=
  match todo with
  | O => Some ip
  | S todo' =>
      match index hb (len hb - i) with
      | None => None
      | Some b =>
          match store ip (len ip - i) b with
          | None => None
          | Some ip' => overwriteTail todo' (i + 1) ip' hb
          end
      end
  end.

Definition getOverlayAddr (ipnet : net.IPNet) (pubkey : Key) : option net.IPNet :=
  let '(bits, size) := net.Size (net.Mask ipnet) in
  let ip := net.IP ipnet in   (* make + copy *)
  let hb := Sum256 pubkey in
  match overwriteTail (Z.to_nat (Z.quot (size - bits) 8)) 1 ip hb with
  | None => None
  | Some ip' => Some {| net.IP := ip'; net.Mask := net.CIDRMask size size |}
  end.

End Derive.

(** ** Errors

    A Go [error] value is [option error], [None] being nil. *)

Inductive error : Type :=
| ErrNotExist (msg : string)      (* a system error meaning: no such file or device *)
| ErrOther (msg : string)
| Wrap (cause : error) (msg : string).   (* errors.Wrap, errors.Wrapf *)

Module os.
(** [os.IsNotExist] looks at the system error itself; it does not look
    through an [errors.Wrap]. *)
Definition IsNotExist (err : error) : bool :=
  match err with
  | ErrNotExist _ => true
  | _ => false
  end.
End os.

(** ** Package [wgtypes]: configuration records of the control plane

    A Go pointer field that may be nil is an [option]. [time.Duration] is a
    number of nanoseconds. *)

Module time.
Definition Duration := Z.
Definition Second : Duration := 1000000000.
End time.

Module wgtypes.

Definition KeyLen : nat := 32.
(** [wgtypes.Key{}] *)
Definition zeroKey : Key := repeat 0 KeyLen.

Record PeerConfig := {
  PublicKey : Key;
  Remove : bool;
  UpdateOnly : bool;
  PresharedKey : option Key;
  Endpoint : option net.UDPAddr;
  PersistentKeepaliveInterval : option time.Duration;
  ReplaceAllowedIPs : bool;
  AllowedIPs : list net.IPNet
}.

Record Config := {
  PrivateKey : option Key;
  ListenPort : option Z;
  FirewallMark : option Z;
  ReplacePeers : bool;
  Peers : list PeerConfig
}.

(** A peer as the device reports it. *)
Record Peer := {
  Peer_PublicKey : Key;
  Peer_PresharedKey : Key;
  Peer_Endpoint : option net.UDPAddr;
  Peer_PersistentKeepaliveInterval : time.Duration
}.

Record Device := { Device_Name : string; Device_Peers : list Peer }.

Definition with_Endpoint (c : PeerConfig) (e : option net.UDPAddr) : PeerConfig :=
  {| PublicKey := PublicKey c; Remove := Remove c; UpdateOnly := UpdateOnly c;
     PresharedKey := PresharedKey c; Endpoint := e;
     PersistentKeepaliveInterval := PersistentKeepaliveInterval c;
     ReplaceAllowedIPs := ReplaceAllowedIPs c; AllowedIPs := AllowedIPs c |}.

Definition with_PersistentKeepaliveInterval (c : PeerConfig) (d : option time.Duration)
  : PeerConfig :=
  {| PublicKey := PublicKey c; Remove := Remove c; UpdateOnly := UpdateOnly c;
     PresharedKey := PresharedKey c; Endpoint := Endpoint c;
     PersistentKeepaliveInterval := d;
     ReplaceAllowedIPs := ReplaceAllowedIPs c; AllowedIPs := AllowedIPs c |}.

End wgtypes.

(** ** Peer records *)

Module Peer.
Record t := {
  IP : string;
  Port : Z;
  PublicKey : Key;
  PresharedKey : Key;
  KeepaliveInterval : time.Duration
}.

Definition with_PresharedKey (p : t) (k : Key) : t :=
  {| IP := IP p; Port := Port p; PublicKey := PublicKey p;
     PresharedKey := k; KeepaliveInterval := KeepaliveInterval p |}.
End Peer.

Section PeerConfig.

Variable Sum256 : list byte -> list byte.
(** [net.ParseIP]: the address a text denotes, nil when it denotes none. *)
Variable ParseIP : string -> net.IP_t.

(** [Peer.toPeerConfig]. The composite literal is evaluated first, so a
    panic of [getOverlayAddr] is a panic of [toPeerConfig]. *)
Definition toPeerConfig (p : Peer.t) (overlayNet : net.IPNet)
  : option wgtypes.PeerConfig :=
  match getOverlayAddr Sum256 overlayNet (Peer.PublicKey p) with
  | None => None
  | Some addr =>
      let config :=
        {| wgtypes.PublicKey := Peer.PublicKey p;
           wgtypes.AllowedIPs := [addr];
           wgtypes.PresharedKey := Some (Peer.PresharedKey p);
           wgtypes.Remove := false;
           wgtypes.UpdateOnly := false;
           wgtypes.Endpoint := None;
           wgtypes.PersistentKeepaliveInterval := None;
           wgtypes.ReplaceAllowedIPs := false |} in
      let config :=
        if negb (Peer.Port p =? 0) && negb (String.eqb (Peer.IP p) "")
        then wgtypes.with_Endpoint config
               (Some {| net.UDP_IP := ParseIP (Peer.IP p);
                        net.UDP_Port := Peer.Port p |})
        else config in
      let config :=
        if negb (Peer.KeepaliveInterval p =? 0)
        then wgtypes.with_PersistentKeepaliveInterval config
               (Some (Peer.KeepaliveInterval p))
        else config in
      Some config
  end.

End PeerConfig.

(** ** The collaborators: control plane, link management, directory, clock

    Every call that leaves the program is an [Event]; [Resp e] is the type
    of what the call returns. *)

Module wgctrl.
(** [*wgctrl.Client], an opaque handle. *)
Inductive Client : Type := Handle (id : Z).
End wgctrl.

Module netlink.
(** [netlink.Link], with the attributes the program reads. *)
Record Link := { Index : Z; Name : string }.
Definition SCOPE_LINK : Z := 253.
End netlink.

Module http.
(** [*http.Response], an opaque handle on the body being read. *)
Inductive Response : Type := Body (id : Z).
End http.

Module logrus.
Inductive Level : Type := DebugLevel | InfoLevel | ErrorLevel.
End logrus.

Inductive Event : Type :=
| wgctrl_New
| Client_Device (c : wgctrl.Client) (name : string)
| Client_ConfigureDevice (c : wgctrl.Client) (name : string) (cfg : wgtypes.Config)
| netlink_LinkAdd (name : string)
| netlink_LinkByName (name : string)
| netlink_LinkDel (link : netlink.Link)
| netlink_AddrReplace (link : netlink.Link) (addr : net.IPNet)
| netlink_LinkSetMTU (link : netlink.Link) (mtu : Z)
| netlink_LinkSetUp (link : netlink.Link)
| netlink_RouteAdd (linkIndex : Z) (dst : net.IPNet) (scope : Z)
| http_Get (timeout : time.Duration) (server : net.TCPAddr)
| gob_Decode (res : http.Response)
| Body_Close (res : http.Response)
| rand_Int
| timer_Send (d : time.Duration)    (* timer <- time.NewTimer(d) *)
| logrus_Log (level : logrus.Level) (msg : string) (err : option error).

Definition Resp (e : Event) : Type :=
  match e with
  | wgctrl_New => wgctrl.Client + error
  | Client_Device _ _ => wgtypes.Device + error
  | Client_ConfigureDevice _ _ _ => option error
  | netlink_LinkAdd _ => option error
  | netlink_LinkByName _ => netlink.Link + error
  | netlink_LinkDel _ => option error
  | netlink_AddrReplace _ _ => option error
  | netlink_LinkSetMTU _ _ => option error
  | netlink_LinkSetUp _ => option error
  | netlink_RouteAdd _ _ _ => option error
  | http_Get _ _ => http.Response + error
  | gob_Decode _ => list Peer.t + error
  | Body_Close _ => unit
  | rand_Int => Z
  | timer_Send _ => unit
  | logrus_Log _ _ _ => unit
  end.

(** A program: it returns, panics, or calls a collaborator and goes on with
    the answer. *)
Inductive Prog (A : Type) : Type :=
| Ret (a : A)
| Panic
| Call (e : Event) (k : Resp e -> Prog A).

Arguments Ret {A} a.
Arguments Panic {A}.
Arguments Call {A} e k.

Fixpoint bind {A B} (p : Prog A) (f : A -> Prog B) : Prog B :=
  match p with
  | Ret a => f a
  | Panic => Panic
  | Call e k => Call e (fun r => bind (k r) f)
  end.

Definition call (e : Event) : Prog (Resp e) := Call e Ret.

Notation "x <- p ;; q" := (bind p (fun x => q))
  (at level 61, p at next level, right associativity).
Notation "' pat <- p ;; q" := (bind p (fun x => match x with pat => q end))
  (at level 61, pat pattern, p at next level, right associativity).
Notation "p ;;; q" := (bind p (fun _ => q))
  (at level 61, right associativity).

(** The calls at the types their answers have. *)
Module do.
Definition wgctrl_New : Prog (wgctrl.Client + error) := call wgctrl_New.
Definition Client_Device (c : wgctrl.Client) (name : string)
  : Prog (wgtypes.Device + error) := call (Client_Device c name).
Definition Client_ConfigureDevice (c : wgctrl.Client) (name : string)
    (cfg : wgtypes.Config) : Prog (option error) :=
  call (Client_ConfigureDevice c name cfg).
Definition netlink_LinkAdd (name : string) : Prog (option error) :=
  call (netlink_LinkAdd name).
Definition netlink_LinkByName (name : string) : Prog (netlink.Link + error) :=
  call (netlink_LinkByName name).
Definition netlink_LinkDel (link : netlink.Link) : Prog (option error) :=
  call (netlink_LinkDel link).
Definition netlink_AddrReplace (link : netlink.Link) (addr : net.IPNet)
  : Prog (option error) := call (netlink_AddrReplace link addr).
Definition netlink_LinkSetMTU (link : netlink.Link) (mtu : Z) : Prog (option error) :=
  call (netlink_LinkSetMTU link mtu).
Definition netlink_LinkSetUp (link : netlink.Link) : Prog (option error) :=
  call (netlink_LinkSetUp link).
Definition netlink_RouteAdd (linkIndex : Z) (dst : net.IPNet) (scope : Z)
  : Prog (option error) := call (netlink_RouteAdd linkIndex dst scope).
Definition http_Get (timeout : time.Duration) (server : net.TCPAddr)
  : Prog (http.Response + error) := call (http_Get timeout server).
Definition gob_Decode (res : http.Response) : Prog (list Peer.t + error) :=
  call (gob_Decode res).
Definition Body_Close (res : http.Response) : Prog unit := call (Body_Close res).
Definition rand_Int : Prog Z := call rand_Int.
Definition timer_Send (d : time.Duration) : Prog unit := call (timer_Send d).
Definition logrus_Log (level : logrus.Level) (msg : string) (err : option error)
  : Prog unit := call (logrus_Log level msg err).
End do.

(** The collaborators together: what each call answers, given the calls
    made so far. *)
Definition Env : Type := list Event -> forall e : Event, Resp e.

(** [run env p hist]: the outcome of [p] ([None] for a panic) and the calls
    it made, in order, when [hist] are the calls made before it. *)
Fixpoint run {A} (env : Env) (p : Prog A) (hist : list Event) : option A * list Event :=
  match p with
  | Ret a => (Some a, [])
  | Panic => (None, [])
  | Call e k =>
      let '(out, tr) := run env (k (env hist e)) (hist ++ [e]) in
      (out, e :: tr)
  end.

(** The peer configurations submitted to the control plane in a trace. *)
Fixpoint submitted (tr : list Event) : list (string * wgtypes.Config) :=
  match tr with
  | [] => []
  | Client_ConfigureDevice _ name cfg :: tr' => (name, cfg) :: submitted tr'
  | _ :: tr' => submitted tr'
  end.

(** The timers handed back to the event loop in a trace. *)
Fixpoint timers (tr : list Event) : list time.Duration :=
  match tr with
  | [] => []
  | timer_Send d :: tr' => d :: timers tr'
  | _ :: tr' => timers tr'
  end.

(** ** Package [wg]: the local node state and its operations *)

Record State := {
  iface : string;
  client : wgctrl.Client;
  OverlayNetwork : net.IPNet;
  OverlayAddr : net.IPNet;
  port : Z;
  privateKey : Key;
  PublicKey : Key
}.

(** A method on [*State]: it is given the state behind the pointer and hands
    it back with its result. *)
Definition Method (A : Type) : Type := State -> Prog (A * State).

(** The variable a [for _, p := range] loop declares: one for the whole
    loop (Go before 1.22), or a new one for each iteration (Go 1.22 on). *)
Inductive LoopVar : Type := PerLoop | PerIteration.

Section Wg.

Variable Sum256 : list byte -> list byte.
Variable ParseIP : string -> net.IP_t.
(** [wgtypes.ParseKey], [Key.PublicKey] and [net.IP.String]. *)
Variable ParseKey : string -> Key + error.
Variable PublicKeyOf : Key -> Key.
Variable IP_String : net.IP_t -> string.
Variable loopVar : LoopVar.

Definition New (iface : string) (port : Z) (overlayNet : net.IPNet) (privKey : string)
  : Prog (State + error) :=
  r <- do.wgctrl_New ;;
  match r with
  | inr err => Ret (inr (Wrap err "Could not instantiate wireguard client"))
  | inl client =>
      match ParseKey privKey with
      | inr err => Ret (inr (Wrap err "Could not parse private key"))
      | inl privateKey =>
          let pubKey := PublicKeyOf privateKey in
          match getOverlayAddr Sum256 overlayNet pubKey with
          | None => Panic
          | Some addr =>
              Ret (inl {| iface := iface;
                          client := client;
                          privateKey := privateKey;
                          PublicKey := pubKey;
                          OverlayNetwork := overlayNet;
                          OverlayAddr := addr;
                          port := port |})
          end
      end
  end.

Definition GetOverlayAddress (pubkey : Key) : Method net.IPNet :=
  fun s =>
    match getOverlayAddr Sum256 (OverlayNetwork s) pubkey with
    | None => Panic
    | Some addr => Ret (addr, s)
    end.

Definition DownInterface : Method (option error) :=
  fun s =>
    r <- do.Client_Device (client s) (iface s) ;;
    match r with
    | inr err =>
        if os.IsNotExist err then Ret (None, s)   (* device already gone; noop *)
        else Ret (Some err, s)
    | inl _ =>
        l <- do.netlink_LinkByName (iface s) ;;
        match l with
        | inr err => Ret (Some err, s)
        | inl link =>
            e <- do.netlink_LinkDel link ;;
            Ret (e, s)
        end
    end.

Definition SetUpInterface : Method (option error) :=
  fun s =>
    e <- do.netlink_LinkAdd (iface s) ;;
    match e with
    | Some err => Ret (Some (Wrap err ("Could not create interface " ++ iface s)), s)
    | None =>
    e <- do.Client_ConfigureDevice (client s) (iface s)
                 {| wgtypes.PrivateKey := Some (privateKey s);
                    wgtypes.ListenPort := if port s =? 0 then None else Some (port s);
                    wgtypes.FirewallMark := None;
                    wgtypes.ReplacePeers := false;
                    wgtypes.Peers := [] |} ;;
    match e with
    | Some err =>
        Ret (Some (Wrap err ("Could not set wireguard configuration for " ++ iface s)), s)
    | None =>
    l <- do.netlink_LinkByName (iface s) ;;
    match l with
    | inr err => Ret (Some (Wrap err ("Could not get link information for " ++ iface s)), s)
    | inl link =>
    e <- do.netlink_AddrReplace link (OverlayAddr s) ;;
    match e with
    | Some err => Ret (Some (Wrap err ("Could not set address for " ++ iface s)), s)
    | None =>
    e <- do.netlink_LinkSetMTU link 1280 ;;
    match e with
    | Some err => Ret (Some (Wrap err ("Could not set MTU for " ++ iface s)), s)
    | None =>
    e <- do.netlink_LinkSetUp link ;;
    match e with
    | Some err => Ret (Some (Wrap err ("Could not enable interface " ++ iface s)), s)
    | None =>
    do.netlink_RouteAdd (netlink.Index link) (OverlayNetwork s) netlink.SCOPE_LINK ;;;
    Ret (None, s)
    end end end end end end.

(** The loop of [AddPeers]: [config] grows by the peer config of every
    record that is not the local node's. *)
Fixpoint AddPeers_config (s : State) (peers : list Peer.t)
    (config : list wgtypes.PeerConfig) : option (list wgtypes.PeerConfig) :=
  match peers with
  | [] => Some config
  | p :: rest =>
      if Key_eq_dec (Peer.PublicKey p) (PublicKey s)
      then AddPeers_config s rest config
      else
        match toPeerConfig Sum256 ParseIP p (OverlayNetwork s) with
        | None => None
        | Some c => AddPeers_config s rest (config ++ [c])
        end
  end.

(** [toPeerConfig] points [PresharedKey] and [PersistentKeepaliveInterval]
    into its receiver, which in [AddPeers] is the loop variable [p], and
    [ConfigureDevice] follows these pointers after the loop. With a variable
    per iteration it finds there what [toPeerConfig] saw; with one variable
    for the loop it finds the fields of the last record of the list. *)
Definition AddPeers_pointees (peers : list Peer.t) (c : wgtypes.PeerConfig)
  : wgtypes.PeerConfig :=
  match loopVar, final peers with
  | PerLoop, Some p =>
      {| wgtypes.PublicKey := wgtypes.PublicKey c;
         wgtypes.Remove := wgtypes.Remove c;
         wgtypes.UpdateOnly := wgtypes.UpdateOnly c;
         wgtypes.PresharedKey :=
           option_map (fun _ => Peer.PresharedKey p) (wgtypes.PresharedKey c);
         wgtypes.Endpoint := wgtypes.Endpoint c;
         wgtypes.PersistentKeepaliveInterval :=
           option_map (fun _ => Peer.KeepaliveInterval p)
                      (wgtypes.PersistentKeepaliveInterval c);
         wgtypes.ReplaceAllowedIPs := wgtypes.ReplaceAllowedIPs c;
         wgtypes.AllowedIPs := wgtypes.AllowedIPs c |}
  | _, _ => c
  end.

Definition AddPeers (peers : list Peer.t) : Method (option error) :=
  fun s =>
    match AddPeers_config s peers [] with
    | None => Panic
    | Some config =>
        e <- do.Client_ConfigureDevice (client s) (iface s)
                     {| wgtypes.PrivateKey := None;
                        wgtypes.ListenPort := None;
                        wgtypes.FirewallMark := None;
                        wgtypes.ReplacePeers := false;
                        wgtypes.Peers := map (AddPeers_pointees peers) config |} ;;
        match e with
        | Some err => Ret (Some (Wrap err ("Could not set peers for " ++ iface s)), s)
        | None => Ret (None, s)
        end
    end.

Definition fromWgtypesPeer (p : wgtypes.Peer) : Peer.t :=
  let peer :=
    {| Peer.PublicKey := wgtypes.Peer_PublicKey p;
       Peer.PresharedKey := wgtypes.Peer_PresharedKey p;
       Peer.KeepaliveInterval := wgtypes.Peer_PersistentKeepaliveInterval p;
       Peer.IP := "";
       Peer.Port := 0 |} in
  match wgtypes.Peer_Endpoint p with
  | Some ep =>
      {| Peer.PublicKey := Peer.PublicKey peer;
         Peer.PresharedKey := Peer.PresharedKey peer;
         Peer.KeepaliveInterval := Peer.KeepaliveInterval peer;
         Peer.IP := IP_String (net.UDP_IP ep);
         Peer.Port := net.UDP_Port ep |}
  | None => peer
  end.

Definition GetPeers : Method (list Peer.t * option error) :=
  fun s =>
    r <- do.Client_Device (client s) (iface s) ;;
    match r with
    | inr err => Ret (([], Some err), s)
    | inl device => Ret ((map fromWgtypesPeer (wgtypes.Device_Peers device), None), s)
    end.

(** ** Package [main]: one reconciliation attempt *)

Definition fetchPeers (server : net.TCPAddr) : Prog (list Peer.t + error) :=
  do.logrus_Log logrus.DebugLevel "Fetching peers from " None ;;;
  r <- do.http_Get (11 * time.Second) server ;;
  match r with
  | inr err =>
      do.logrus_Log logrus.ErrorLevel "Could not connect to server" (Some err) ;;;
      Ret (inr err)
  | inl res =>
      d <- do.gob_Decode res ;;
      match d with
      | inr err =>
          do.logrus_Log logrus.ErrorLevel "Could not decode peer list" (Some err) ;;;
          do.Body_Close res ;;;
          Ret (inr err)
      | inl peers =>
          do.logrus_Log logrus.DebugLevel "Fetched peers: " None ;;;
          do.Body_Close res ;;;
          Ret (inl peers)
      end
  end.

(** A Go [int] and a [time.Duration] are 64-bit two's complement. *)
Definition wrap64 (x : Z) : Z := (x + 2 ^ 63) mod 2 ^ 64 - 2 ^ 63.

(** [time.Second * time.Duration(n%20+20)]; Go's [%] truncates. *)
Definition nextDelay (n : Z) : time.Duration :=
  wrap64 (time.Second * wrap64 (Z.rem n 20 + 20)).

Definition updatePeers (serverAddr : net.TCPAddr) (preshardKey : Key) : Method unit :=
  fun wg =>
    r <- fetchPeers serverAddr ;;
    wg' <- match r with
           | inl peers =>
               let peers := map (fun p => Peer.with_PresharedKey p preshardKey) peers in
               '(err, wg') <- AddPeers peers wg ;;
               match err with
               | Some e => do.logrus_Log logrus.ErrorLevel "Could not add peers" (Some e)
               | None => Ret tt
               end ;;;
               do.logrus_Log logrus.DebugLevel "Added peers: " None ;;;
               Ret wg'
           | inr _ => Ret wg
           end ;;
    n <- do.rand_Int ;;
    do.timer_Send (nextDelay n) ;;;
    Ret (tt, wg').

End Wg.

(** ** Prefixes *)

(** Bit [j] of an address, bit 0 being the most significant of the first byte. *)
Definition bit (ip : net.IP_t) (j : Z) : bool :=
  Z.testbit (nth (Z.to_nat (j / 8)) ip 0) (7 - j mod 8).

(** A network prefix: a 4- or 16-byte base address and a prefix length
    [ones], the mask being the one [net.ParseCIDR] builds for it. *)
Definition isPrefix (p : net.IPNet) (ones : Z) : Prop :=
  let bits := 8 * len (net.IP p) in
  (bits = 32 \/ bits = 128) /\ 0 <= ones <= bits /\
  net.Mask p = net.CIDRMask ones bits.

(** ** Invariant and frame of the local node state *)

(** What [New] establishes: the stored overlay address is the address
    derived from the stored network and the node's own public key. *)
Definition State_ok (Sum256 : list byte -> list byte) (s : State) : Prop :=
  getOverlayAddr Sum256 (OverlayNetwork s) (PublicKey s) = Some (OverlayAddr s).

(** A method leaves the stored network and overlay address as they were,
    whatever the collaborators answer. *)
Definition keepsOverlay {A} (m : Method A) : Prop :=
  forall (env : Env) (s : State) (hist : list Event) (a : A) (s' : State) (tr : list Event),
    run env (m s) hist = (Some (a, s'), tr) ->
    OverlayNetwork s' = OverlayNetwork s /\ OverlayAddr s' = OverlayAddr s.

(** The records of a list that are not the local node's. *)
Definition others (s : State) (peers : list Peer.t) : list Peer.t :=
  filter (fun p => if Key_eq_dec (Peer.PublicKey p) (PublicKey s) then false else true)
         peers.

(** The configuration [AddPeers] builds around a list of peer configs. *)
Definition peersOnly (config : list wgtypes.PeerConfig) : wgtypes.Config :=
  {| wgtypes.PrivateKey := None;
     wgtypes.ListenPort := None;
     wgtypes.FirewallMark := None;
     wgtypes.ReplacePeers := false;
     wgtypes.Peers := config |}.

(** ** The control plane's side of [ConfigureDevice]

    What the control plane documents for a peer list, on the identities of
    the peers a device has: [ReplacePeers] starts from an empty list instead
    of the device's; a peer config with [Remove] deletes its peer; any other
    updates its peer, or appends it unless [UpdateOnly] is set. *)

Module controlplane.

Definition applyPeer (dev : list Key) (c : wgtypes.PeerConfig) : list Key :=
  if wgtypes.Remove c then remove Key_eq_dec (wgtypes.PublicKey c) dev
  else if in_dec Key_eq_dec (wgtypes.PublicKey c) dev then dev
  else if wgtypes.UpdateOnly c then dev
  else dev ++ [wgtypes.PublicKey c].

Definition applyPeers (cfg : wgtypes.Config) (dev : list Key) : list Key :=
  fold_left applyPeer (wgtypes.Peers cfg)
    (if wgtypes.ReplacePeers cfg then [] else dev).

End controlplane.

(** ** Worked examples: data *)

Module Example.

(** 10.0.0.0/8 *)
Definition net10 : net.IPNet :=
  {| net.IP := [10; 0; 0; 0]; net.Mask := net.CIDRMask 8 32 |}.

(** 10.0.0.0/24 *)
Definition net10_24 : net.IPNet :=
  {| net.IP := [10; 0; 0; 0]; net.Mask := net.CIDRMask 24 32 |}.

(** 10.0.0.42/32 *)
Definition addr_10_0_0_42 : net.IPNet :=
  {| net.IP := [10; 0; 0; 42]; net.Mask := [255; 255; 255; 255] |}.

(** A key whose SHA-256 digest ends in 75 c1 2a. *)
Definition keyA : Key := [0; 0; 1; 234] ++ repeat 0 28.

(** A key whose SHA-256 digest ends in 00 00 2a. *)
Definition keyB : Key := [0; 114; 169; 69] ++ repeat 0 28.

(** Library functions for the examples. [ParseIP] reads dotted decimal
    (four fields of one to three digits, no leading zero, at most 255) into
    the 16-byte form and answers nil to anything else; [ParseKey] knows one
    key text; [PublicKeyOf] and [IP_String] are stand-ins of the right
    types. *)
Definition digit (c : ascii) : option Z :=
  let n := Z.of_N (N_of_ascii c) in
  if (48 <=? n) && (n <=? 57) then Some (n - 48) else None.

Fixpoint fields (s : string) (cur : list ascii) : list (list ascii) :=
  match s with
  | EmptyString => [rev cur]
  | String c s' =>
      if Ascii.eqb c "."%char then rev cur :: fields s' [] else fields s' (c :: cur)
  end.

Fixpoint decimal (f : list ascii) (acc : Z) : option Z :=
  match f with
  | [] => Some acc
  | c :: f' =>
      match digit c with
      | Some d => decimal f' (10 * acc + d)
      | None => None
      end
  end.

Definition octet (f : list ascii) : option Z :=
  match f with
  | [] => None
  | c :: f' =>
      if (3 <? len f) || (Ascii.eqb c "0"%char && negb (len f =? 1)) then None
      else
        match decimal f 0 with
        | Some v => if v <=? 255 then Some v else None
        | None => None
        end
  end.

Definition ParseIP (s : string) : net.IP_t :=
  match map octet (fields s []) with
  | [Some a; Some b; Some c; Some d] =>
      [0; 0; 0; 0; 0; 0; 0; 0; 0; 0; 255; 255; a; b; c; d]
  | _ => []
  end.

Definition privText : string := "AAAB6gAAAAAAAAAAAAAAAAAAAAAAAAAAAAAAAAAAAAA=".

Definition ParseKey (s : string) : Key + error :=
  if String.eqb s privText then inl keyA else inr (ErrOther "bad key").

Definition PublicKeyOf (priv : Key) : Key := sha256.Sum256 priv.

Definition IP_String (ip : net.IP_t) : string := "".

(** Peer records: one with an endpoint, one without endpoint or secret,
    one whose address text is no address. *)
Definition secret : Key := repeat 7 32.

Definition peerP : Peer.t :=
  {| Peer.IP := "192.0.2.7"; Peer.Port := 51820; Peer.PublicKey := keyB;
     Peer.PresharedKey := secret; Peer.KeepaliveInterval := 0 |}.

Definition peerBare : Peer.t :=
  {| Peer.IP := ""; Peer.Port := 0; Peer.PublicKey := keyB;
     Peer.PresharedKey := wgtypes.zeroKey; Peer.KeepaliveInterval := 0 |}.

Definition peerBadIP : Peer.t :=
  {| Peer.IP := "not-an-ip"; Peer.Port := 51820; Peer.PublicKey := keyB;
     Peer.PresharedKey := wgtypes.zeroKey; Peer.KeepaliveInterval := 0 |}.

(** The local node: its public key is the one of [keyA]. *)
Definition self : State :=
  {| iface := "wg0"; client := wgctrl.Handle 1;
     OverlayNetwork := net10;
     OverlayAddr := {| net.IP := [10; 133; 226; 96]; net.Mask := [255; 255; 255; 255] |};
     port := 0; privateKey := keyA; PublicKey := PublicKeyOf keyA |}.

Definition peerSelf : Peer.t :=
  {| Peer.IP := "192.0.2.1"; Peer.Port := 51820; Peer.PublicKey := PublicKeyOf keyA;
     Peer.PresharedKey := wgtypes.zeroKey; Peer.KeepaliveInterval := 0 |}.

Definition server : net.TCPAddr :=
  {| net.TCP_IP := [10; 0; 0; 1]; net.TCP_Port := 8080 |}.

(** Collaborators. [env fetch dev n]: every link and control-plane call
    succeeds, the directory answers [fetch], the device query answers
    [dev], and [rand.Int] answers [n]. *)
Definition env (fetch : list Peer.t + error) (dev : wgtypes.Device + error) (n : Z)
  : Env :=
  fun _ e =>
    match e as e' return Resp e' with
    | wgctrl_New => inl (wgctrl.Handle 1)
    | Client_Device _ _ => dev
    | Client_ConfigureDevice _ _ _ => None
    | netlink_LinkAdd _ => None
    | netlink_LinkByName name => inl {| netlink.Index := 3; netlink.Name := name |}
    | netlink_LinkDel _ => None
    | netlink_AddrReplace _ _ => None
    | netlink_LinkSetMTU _ _ => None
    | netlink_LinkSetUp _ => None
    | netlink_RouteAdd _ _ _ => None
    | http_Get _ _ =>
        match fetch with
        | inr err => inr err
        | inl _ => inl (http.Body 1)
        end
    | gob_Decode _ => fetch
    | Body_Close _ => tt
    | rand_Int => n
    | timer_Send _ => tt
    | logrus_Log _ _ _ => tt
    end.

Definition envDown : Env :=
  env (inr (ErrOther "connection refused")) (inr (ErrNotExist "no such device")) 12345.

Definition envUp : Env :=
  env (inl [peerSelf; peerP]) (inl {| wgtypes.Device_Name := "wg0"; wgtypes.Device_Peers := [] |})
      1234567.

End Example.

(** ** Reading traces *)

(** The response bodies closed in a trace. *)
Fixpoint closed (tr : list Event) : list http.Response :=
  match tr with
  | [] => []
  | Body_Close res :: tr' => res :: closed tr'
  | _ :: tr' => closed tr'
  end.

(** The messages logged in a trace, with their levels. *)
Fixpoint logged (tr : list Event) : list (logrus.Level * string) :=
  match tr with
  | [] => []
  | logrus_Log level msg _ :: tr' => (level, msg) :: logged tr'
  | _ :: tr' => logged tr'
  end.

(** The links a trace asks to delete. *)
Fixpoint deleted (tr : list Event) : list netlink.Link :=
  match tr with
  | [] => []
  | netlink_LinkDel link :: tr' => link :: deleted tr'
  | _ :: tr' => deleted tr'
  end.

(** The calls of [SetUpInterface] when every step succeeds, [link] being the
    link found under the interface's name. *)
Definition setupCalls (s : State) (link : netlink.Link) : list Event :=
  [netlink_LinkAdd (iface s);
   Client_ConfigureDevice (client s) (iface s)
     {| wgtypes.PrivateKey := Some (privateKey s);
        wgtypes.ListenPort := if port s =? 0 then None else Some (port s);
        wgtypes.FirewallMark := None;
        wgtypes.ReplacePeers := false;
        wgtypes.Peers := [] |};
   netlink_LinkByName (iface s);
   netlink_AddrReplace link (OverlayAddr s);
   netlink_LinkSetMTU link 1280;
   netlink_LinkSetUp link;
   netlink_RouteAdd (netlink.Index link) (OverlayNetwork s) netlink.SCOPE_LINK].

(** ** Worked examples: further data *)

Module Cases.

(** A 4-byte address under a 16-byte mask of no ones: sixteen host bytes. *)
Definition netShort : net.IPNet :=
  {| net.IP := [10; 0; 0; 0]; net.Mask := net.CIDRMask 0 128 |}.

(** 10.0.0.0 under the mask 255.0.255.0, which is not ones followed by zeros. *)
Definition netHoles : net.IPNet :=
  {| net.IP := [10; 0; 0; 0]; net.Mask := [255; 0; 255; 0] |}.

(** 10.0.0.0/30 *)
Definition net10_30 : net.IPNet :=
  {| net.IP := [10; 0; 0; 0]; net.Mask := net.CIDRMask 30 32 |}.


(** A record with a keepalive of 25 seconds. *)
Definition peerKeep : Peer.t :=
  {| Peer.IP := "192.0.2.9"; Peer.Port := 51820; Peer.PublicKey := Example.keyB;
     Peer.PresharedKey := Example.secret; Peer.KeepaliveInterval := 25 * time.Second |}.

(** [IP.String] for the examples: dotted decimal of the last four bytes of
    a 16-byte address. *)
Definition digitChar (d : Z) : ascii := ascii_of_N (Z.to_N (48 + d)).

Definition decimalText (v : Z) : string :=
  if v <? 10 then String (digitChar v) ""
  else if v <? 100 then String (digitChar (v / 10)) (String (digitChar (v mod 10)) "")
  else String (digitChar (v / 100))
         (String (digitChar (v / 10 mod 10)) (String (digitChar (v mod 10)) "")).

Definition IP_String (ip : net.IP_t) : string :=
  match skipn 12 ip with
  | [a; b; c; d] =>
      (decimalText a ++ "." ++ decimalText b ++ "." ++ decimalText c ++ "."
         ++ decimalText d)%string
  | _ => "<nil>"%string
  end.

(** 198.51.100.23:51820 *)
Definition endpoint : net.UDPAddr :=
  {| net.UDP_IP := [0; 0; 0; 0; 0; 0; 0; 0; 0; 0; 255; 255; 198; 51; 100; 23];
     net.UDP_Port := 51820 |}.

(** Peers as a device reports them: one with an endpoint and a keepalive,
    one with neither. *)
Definition devicePeer : wgtypes.Peer :=
  {| wgtypes.Peer_PublicKey := Example.keyB;
     wgtypes.Peer_PresharedKey := Example.secret;
     wgtypes.Peer_Endpoint := Some endpoint;
     wgtypes.Peer_PersistentKeepaliveInterval := 25 * time.Second |}.

Definition devicePeerBare : wgtypes.Peer :=
  {| wgtypes.Peer_PublicKey := Example.keyA;
     wgtypes.Peer_PresharedKey := wgtypes.zeroKey;
     wgtypes.Peer_Endpoint := None;
     wgtypes.Peer_PersistentKeepaliveInterval := 0 |}.


(** A state that [New] cannot have returned: its network is [netShort]. *)
Definition selfShort : State :=
  {| iface := "wg0"; client := wgctrl.Handle 1;
     OverlayNetwork := netShort;
     OverlayAddr := {| net.IP := [10; 0; 0; 1]; net.Mask := [255; 255; 255; 255] |};
     port := 0; privateKey := Example.keyA; PublicKey := Example.PublicKeyOf Example.keyA |}.

(** Collaborators whose control plane refuses every configuration. *)
Definition envRefuse : Env :=
  fun h e =>
    match e as e' return Resp e' with
    | Client_ConfigureDevice _ _ _ => Some (ErrOther "operation not permitted")
    | e' => Example.envUp h e'
    end.


(** Collaborators whose directory answers, with a body that does not decode. *)
Definition envGarbled : Env :=
  fun h e =>
    match e as e' return Resp e' with
    | gob_Decode _ => inr (ErrOther "unexpected EOF")
    | e' => Example.envUp h e'
    end.


(** A mesh-wide secret, other than the one the records of the examples carry. *)
Definition meshSecret : Key := repeat 9 32.

(** The calls of a fetch that succeeds. *)
Definition fetched : list Event :=
  [logrus_Log logrus.DebugLevel "Fetching peers from " None;
   http_Get (11 * time.Second) Example.server;
   gob_Decode (http.Body 1);
   logrus_Log logrus.DebugLevel "Fetched peers: " None;
   Body_Close (http.Body 1)].


(** Collaborators whose device query fails for a reason other than absence;
    whose link lookup fails; whose address assignment fails; and whose route
    installation fails. *)
Definition envDenied : Env :=
  Example.env (inr (ErrOther "connection refused")) (inr (ErrOther "permission denied")) 7.

Definition envNoLink : Env :=
  fun h e =>
    match e as e' return Resp e' with
    | netlink_LinkByName _ => inr (ErrOther "link not found")
    | e' => Example.envUp h e'
    end.

Definition envNoAddr : Env :=
  fun h e =>
    match e as e' return Resp e' with
    | netlink_AddrReplace _ _ => Some (ErrOther "invalid argument")
    | e' => Example.envUp h e'
    end.

Definition envNoRoute : Env :=
  fun h e =>
    match e as e' return Resp e' with
    | netlink_RouteAdd _ _ _ => Some (ErrOther "file exists")
    | e' => Example.envUp h e'
    end.

(** Collaborators whose device has the two peers of the examples. *)
Definition envPeers : Env :=
  Example.env (inl [])
    (inl {| wgtypes.Device_Name := "wg0";
            wgtypes.Device_Peers := [devicePeer; devicePeerBare] |}) 7.

(** The link every lookup of the examples finds. *)
Definition link0 : netlink.Link := {| netlink.Index := 3; netlink.Name := "wg0" |}.


(** Collaborators that cannot open the control plane. *)
Definition envNoClient : Env :=
  fun h e =>
    match e as e' return Resp e' with
    | wgctrl_New => inr (ErrOther "netlink: permission denied")
    | e' => Example.envUp h e'
    end.


(** 10.0.0.0/12 *)
Definition net10_12 : net.IPNet :=
  {| net.IP := [10; 0; 0; 0]; net.Mask := net.CIDRMask 12 32 |}.

End Cases.

(** * Properties *)

(** ** Slices *)

Lemma set_nth_length {A} (l : list A) n v : length (set_nth l n v) = length l.
Proof.
  revert n; induction l as [|h t IH]; intros [|n]; simpl; auto.
Qed.

Lemma nth_error_set_nth {A} (l : list A) n v j :
  nth_error (set_nth l n v) j =
  if Nat.eqb j n && Nat.ltb n (length l) then Some v else nth_error l j.
Proof.
  revert n j; induction l as [|h t IH]; intros n j; simpl.
  - rewrite andb_false_r. reflexivity.
  - destruct n as [|n], j as [|j]; simpl; auto.
Qed.

Lemma index_eq {A} (l : list A) i :
  0 <= i < len l -> index l i = nth_error l (Z.to_nat i).
Proof.
  intros H. unfold index.
  destruct (Z.leb_spec 0 i); [|lia]. destruct (Z.ltb_spec i (len l)); [|lia].
  reflexivity.
Qed.

Lemma store_eq {A} (l : list A) i v :
  0 <= i < len l -> store l i v = Some (set_nth l (Z.to_nat i) v).
Proof.
  intros H. unfold store.
  destruct (Z.leb_spec 0 i); [|lia]. destruct (Z.ltb_spec i (len l)); [|lia].
  reflexivity.
Qed.

(** ** The copy loop of [getOverlayAddr] *)

(** [todo] rounds starting after [d] rounds replace the bytes at
    [n-d-todo .. n-d-1] by the digest's bytes at the same distance from the
    end, and nothing else. *)
Lemma overwriteTail_spec (hb : list byte) (todo : nat) :
  forall (d : nat) (ip : list byte),
    (d + todo <= length ip)%nat -> (d + todo <= length hb)%nat ->
    exists ip',
      overwriteTail todo (Z.of_nat d + 1) ip hb = Some ip' /\
      length ip' = length ip /\
      forall j,
        nth_error ip' j =
        if Nat.leb (length ip - d - todo) j && Nat.ltb j (length ip - d)
        then nth_error hb (j + length hb - length ip)
        else nth_error ip j.
Proof.
  induction todo as [|todo IH]; intros d ip Hip Hhb; simpl.
  - exists ip. repeat split; auto. intros j.
    destruct (Nat.leb_spec (length ip - d - 0) j); destruct (Nat.ltb_spec j (length ip - d));
      simpl; auto; lia.
  - rewrite index_eq by (unfold len; lia).
    destruct (nth_error hb (Z.to_nat (len hb - (Z.of_nat d + 1)))) as [b|] eqn:Eb.
    2:{ apply nth_error_None in Eb. unfold len in Eb. lia. }
    rewrite store_eq by (unfold len; lia).
    set (ip1 := set_nth ip (Z.to_nat (len ip - (Z.of_nat d + 1))) b).
    assert (L1 : length ip1 = length ip) by apply set_nth_length.
    destruct (IH (S d) ip1) as (ip' & E & L & N); try lia.
    exists ip'. replace (Z.of_nat d + 1 + 1) with (Z.of_nat (S d) + 1) by lia.
    split; [exact E|]. split; [lia|].
    intros j. rewrite N, !L1. unfold ip1. rewrite nth_error_set_nth.
    replace (Z.to_nat (len ip - (Z.of_nat d + 1))) with (length ip - d - 1)%nat
      by (unfold len; lia).
    replace (Z.to_nat (len hb - (Z.of_nat d + 1))) with (length hb - d - 1)%nat in Eb
      by (unfold len; lia).
    destruct (Nat.leb_spec (length ip - S d - todo) j);
      destruct (Nat.ltb_spec j (length ip - S d));
      destruct (Nat.leb_spec (length ip - d - S todo) j);
      destruct (Nat.ltb_spec j (length ip - d));
      destruct (Nat.eqb_spec j (length ip - d - 1));
      destruct (Nat.ltb_spec (length ip - d - 1) (length ip));
      simpl; try lia; auto.
    subst j. rewrite <- Eb. f_equal. lia.
Qed.

Lemma overwriteTail_Some_inv (hb : list byte) (todo : nat) :
  forall (d : nat) (ip ip' : list byte),
    (d <= length ip)%nat -> (d <= length hb)%nat ->
    overwriteTail todo (Z.of_nat d + 1) ip hb = Some ip' ->
    (d + todo <= length ip)%nat /\ (d + todo <= length hb)%nat.
Proof.
  induction todo as [|todo IH]; intros d ip ip' Hip Hhb; simpl.
  - intros _. lia.
  - unfold index, store.
    destruct (Z.leb_spec 0 (len hb - (Z.of_nat d + 1)));
      destruct (Z.ltb_spec (len hb - (Z.of_nat d + 1)) (len hb)); simpl;
      try discriminate.
    destruct (nth_error hb _) as [b|]; [|discriminate].
    destruct (Z.leb_spec 0 (len ip - (Z.of_nat d + 1)));
      destruct (Z.ltb_spec (len ip - (Z.of_nat d + 1)) (len ip)); simpl;
      try discriminate.
    replace (Z.of_nat d + 1 + 1) with (Z.of_nat (S d) + 1) by lia.
    intros E. apply IH in E; rewrite ?set_nth_length in *; unfold len in *; lia.
Qed.

Lemma nth_of_nth_error {A} (l1 l2 : list A) n d :
  nth_error l1 n = nth_error l2 n -> nth n l1 d = nth n l2 d.
Proof.
  intros E. destruct (nth_error l1 n) as [x|] eqn:E1.
  - symmetry in E. rewrite (nth_error_nth _ _ d E1), (nth_error_nth _ _ d E). reflexivity.
  - symmetry in E. apply nth_error_None in E1, E.
    rewrite (nth_overflow _ d E1), (nth_overflow _ d E). reflexivity.
Qed.

(** ** Masks *)

Lemma Size_CIDRMask_upto (bits : Z) (n : nat) :
  forallb (fun i => let o := Z.of_nat i in
                    let '(a, b) := net.Size (net.CIDRMask o bits) in
                    (a =? o) && (b =? bits)) (seq 0 n) = true ->
  forall ones, 0 <= ones < Z.of_nat n ->
               net.Size (net.CIDRMask ones bits) = (ones, bits).
Proof.
  intros H ones Hr. rewrite forallb_forall in H.
  specialize (H (Z.to_nat ones)). rewrite Z2Nat.id in H by lia.
  assert (I : In (Z.to_nat ones) (seq 0 n)) by (apply in_seq; lia).
  apply H in I. cbv zeta in I. revert I.
  destruct (net.Size (net.CIDRMask ones bits)) as [a b]. intros I.
  apply andb_prop in I. destruct I as [I1 I2].
  apply Z.eqb_eq in I1, I2. congruence.
Qed.

(** [Size] reads back what [CIDRMask] wrote. *)
Lemma Size_CIDRMask (ones bits : Z) :
  bits = 32 \/ bits = 128 -> 0 <= ones <= bits ->
  net.Size (net.CIDRMask ones bits) = (ones, bits).
Proof.
  intros [-> | ->] H.
  - apply (Size_CIDRMask_upto 32 33); [vm_compute; reflexivity | lia].
  - apply (Size_CIDRMask_upto 128 129); [vm_compute; reflexivity | lia].
Qed.

Lemma hostBytes_prefix (p : net.IPNet) (ones : Z) :
  isPrefix p ones ->
  net.Size (net.Mask p) = (ones, 8 * len (net.IP p)) /\
  (hostBytes p <= length (net.IP p))%nat /\ (hostBytes p <= 16)%nat /\
  (8 * Z.of_nat (length (net.IP p) - hostBytes p) >= ones).
Proof.
  intros (Hb & Ho & Hm). unfold hostBytes. rewrite Hm.
  rewrite (Size_CIDRMask _ _ Hb Ho). split; [reflexivity|].
  rewrite Z.quot_div_nonneg by lia. unfold len in *.
  destruct Hb as [Hb | Hb]; rewrite Hb in *;
    match goal with
    | |- context [Z.to_nat (?x / 8)] =>
        assert (0 <= x / 8 /\ 8 * (x / 8) <= x)
          by (split; [apply Z.div_pos | apply Z.mul_div_le]; lia);
        generalize dependent (x / 8); intros
    end; repeat split; lia.
Qed.

(** ** Overlay address derivation *)

Section DeriveFacts.

Variable Sum256 : list byte -> list byte.
Hypothesis Sum256_size : forall m, length (Sum256 m) = 32%nat.

(** When the mask leaves no more host bytes than the address (and the
    digest) has, [getOverlayAddr] returns the base address with its last
    [hostBytes] bytes replaced by the last bytes of the digest, under a mask
    of [size] ones. *)
Lemma getOverlayAddr_bytes (p : net.IPNet) (k : Key) :
  (hostBytes p <= length (net.IP p))%nat -> (hostBytes p <= 32)%nat ->
  exists a,
    getOverlayAddr Sum256 p k = Some a /\
    length (net.IP a) = length (net.IP p) /\
    net.Mask a = net.CIDRMask (snd (net.Size (net.Mask p))) (snd (net.Size (net.Mask p))) /\
    forall j,
      nth_error (net.IP a) j =
      if Nat.leb (length (net.IP p) - hostBytes p) j && Nat.ltb j (length (net.IP p))
      then nth_error (Sum256 k) (j + 32 - length (net.IP p))
      else nth_error (net.IP p) j.
Proof.
  unfold hostBytes, getOverlayAddr.
  destruct (net.Size (net.Mask p)) as [bits size]; simpl snd.
  intros H1 H2.
  destruct (overwriteTail_spec (Sum256 k) (Z.to_nat (Z.quot (size - bits) 8)) 0 (net.IP p))
    as (ip' & E & L & N); rewrite ?Sum256_size; try lia.
  simpl in E. rewrite E. eexists; repeat split; simpl; auto.
  intros j. rewrite N, Sum256_size, Nat.sub_0_r. reflexivity.
Qed.

(** Whether [getOverlayAddr] panics depends on the prefix only. *)
Lemma getOverlayAddr_Some_iff (p : net.IPNet) (k : Key) :
  (exists a, getOverlayAddr Sum256 p k = Some a) <->
  (hostBytes p <= length (net.IP p))%nat /\ (hostBytes p <= 32)%nat.
Proof.
  split.
  - intros [a E]. unfold getOverlayAddr, hostBytes in *.
    destruct (net.Size (net.Mask p)) as [bits size].
    destruct (overwriteTail _ _ _ _) as [ip'|] eqn:O; [|discriminate].
    apply (overwriteTail_Some_inv _ _ 0) in O; rewrite ?Sum256_size in *; lia.
  - intros [H1 H2]. destruct (getOverlayAddr_bytes p k H1 H2) as (a & E & _).
    exists a; exact E.
Qed.

Lemma getOverlayAddr_any_key (p : net.IPNet) (k k' : Key) (a : net.IPNet) :
  getOverlayAddr Sum256 p k = Some a ->
  exists a', getOverlayAddr Sum256 p k' = Some a'.
Proof.
  intros E. apply getOverlayAddr_Some_iff. apply (getOverlayAddr_Some_iff p k).
  exists a; exact E.
Qed.

(** C3. For a network prefix (a 4- or 16-byte base address with a prefix
    length [ones]) and any public key, [getOverlayAddr] returns an address
    as long as the base, equal to the base on all [ones] prefix bits, under
    the full-length mask (/32 or /128: every mask byte is 255). *)
Theorem getOverlayAddr_in_prefix (p : net.IPNet) (ones : Z) (k : Key) :
  isPrefix p ones ->
  exists a,
    getOverlayAddr Sum256 p k = Some a /\
    length (net.IP a) = length (net.IP p) /\
    (forall j, 0 <= j < ones -> bit (net.IP a) j = bit (net.IP p) j) /\
    net.Mask a = repeat 255 (length (net.IP p)) /\
    net.Size (net.Mask a) = (8 * len (net.IP p), 8 * len (net.IP p)).
Proof.
  intros HP. destruct (hostBytes_prefix p ones HP) as (HS & H1 & H2 & H3).
  destruct (getOverlayAddr_bytes p k) as (a & E & L & M & N); try lia.
  exists a. split; [exact E|]. split; [exact L|]. rewrite HS in M; cbn [snd] in M.
  split; [|split].
  - intros j Hj. unfold bit. f_equal. apply nth_of_nth_error. rewrite N.
    destruct (Nat.leb_spec (length (net.IP p) - hostBytes p) (Z.to_nat (j / 8)));
      simpl; auto.
    exfalso. assert (0 <= j / 8) by (apply Z.div_pos; lia).
    assert (8 * (j / 8) <= j) by (apply Z.mul_div_le; lia). lia.
  - rewrite M. destruct HP as ([Hb | Hb] & _); rewrite Hb; unfold len in Hb;
      [replace (length (net.IP p)) with 4%nat by lia
      |replace (length (net.IP p)) with 16%nat by lia]; reflexivity.
  - rewrite M. destruct HP as (Hb & _). apply Size_CIDRMask; [exact Hb|].
    destruct Hb; lia.
Qed.

End DeriveFacts.

(** ** SHA-256 *)

Lemma Sum256_size (m : list byte) : length (sha256.Sum256 m) = 32%nat.
Proof.
  unfold sha256.Sum256. cbv zeta.
  generalize (sha256.blocks (Nat.div (length (sha256.pad m)) 64) (sha256.pad m) sha256.init).
  intros s. reflexivity.
Qed.

(** The first and last round constant, the first and last word of the
    initial hash value, and the digests of the empty message and of "abc"
    (first and last four bytes), as FIPS 180-4 prints them. *)
Example Sum256_vectors :
  nth 0 sha256.K 0 = 0x428a2f98 /\ nth 63 sha256.K 0 = 0xc67178f2 /\
  sha256.h0 sha256.init = 0x6a09e667 /\ sha256.h7 sha256.init = 0x5be0cd19 /\
  firstn 4 (sha256.Sum256 []) = [0xe3; 0xb0; 0xc4; 0x42] /\
  skipn 28 (sha256.Sum256 []) = [0x78; 0x52; 0xb8; 0x55] /\
  firstn 4 (sha256.Sum256 [97; 98; 99]) = [0xba; 0x78; 0x16; 0xbf] /\
  skipn 28 (sha256.Sum256 [97; 98; 99]) = [0xf2; 0x00; 0x15; 0xad].
Proof. vm_compute. repeat split. Qed.

(** ** The 10.0.0.0/8 scenario *)

Section Scenario10.

Variable Sum256 : list byte -> list byte.
Hypothesis Sum256_size : forall m, length (Sum256 m) = 32%nat.

(** C4, amended. Under 10.0.0.0/8 the mask leaves three host bytes, so the
    last three bytes of the address are the last three bytes of the digest:
    a digest ending in x, y, 0x2A gives 10.x.y.42/32, which is 10.0.0.42/32
    when x = y = 0. It is under 10.0.0.0/24 that the last byte alone is
    replaced, and any digest ending in 0x2A gives 10.0.0.42/32. *)
Theorem getOverlayAddr_10_8 (K : Key) :
  (forall x y : byte,
     skipn 29 (Sum256 K) = [x; y; 42] ->
     getOverlayAddr Sum256 Example.net10 K =
       Some {| net.IP := [10; x; y; 42]; net.Mask := [255; 255; 255; 255] |} /\
     (x = 0 -> y = 0 ->
      getOverlayAddr Sum256 Example.net10 K = Some Example.addr_10_0_0_42)) /\
  (skipn 31 (Sum256 K) = [42] ->
   getOverlayAddr Sum256 Example.net10_24 K = Some Example.addr_10_0_0_42).
Proof.
  pose proof (Sum256_size K) as L.
  remember (Sum256 K) as hb eqn:E.
  destruct hb as [|b0 hb]; [discriminate|].
  do 31 (destruct hb as [|? hb]; [discriminate|]).
  destruct hb; [|discriminate]. clear L.
  split.
  - intros x y H. simpl in H. injection H as -> -> ->.
    assert (G : getOverlayAddr Sum256 Example.net10 K =
                Some {| net.IP := [10; x; y; 42]; net.Mask := [255; 255; 255; 255] |})
      by (unfold getOverlayAddr; rewrite <- E; reflexivity).
    split; [exact G|]. intros -> ->. exact G.
  - intros H. simpl in H. injection H as ->.
    unfold getOverlayAddr. rewrite <- E. reflexivity.
Qed.

End Scenario10.

(** C4 as the scenario words it fails: the digest of [keyA] ends in 0x2A, and
    its address under 10.0.0.0/8 is 10.117.193.42/32, not 10.0.0.42/32. *)
Lemma getOverlayAddr_10_8_last_byte_only_fails :
  last (sha256.Sum256 Example.keyA) 0 = 0x2A /\
  getOverlayAddr sha256.Sum256 Example.net10 Example.keyA =
    Some {| net.IP := [10; 117; 193; 42]; net.Mask := [255; 255; 255; 255] |} /\
  ~ (forall K : Key,
       last (sha256.Sum256 K) 0 = 0x2A ->
       getOverlayAddr sha256.Sum256 Example.net10 K = Some Example.addr_10_0_0_42).
Proof.
  assert (L : last (sha256.Sum256 Example.keyA) 0 = 0x2A) by (vm_compute; reflexivity).
  assert (E : getOverlayAddr sha256.Sum256 Example.net10 Example.keyA =
              Some {| net.IP := [10; 117; 193; 42]; net.Mask := [255; 255; 255; 255] |})
    by (vm_compute; reflexivity).
  repeat split; auto.
  intros H. specialize (H Example.keyA L). rewrite E in H. discriminate H.
Qed.

Lemma getOverlayAddr_10_8_witness :
  skipn 29 (sha256.Sum256 Example.keyB) = [0; 0; 42] /\
  getOverlayAddr sha256.Sum256 Example.net10 Example.keyB = Some Example.addr_10_0_0_42 /\
  skipn 31 (sha256.Sum256 Example.keyB) = [42] /\
  getOverlayAddr sha256.Sum256 Example.net10_24 Example.keyB = Some Example.addr_10_0_0_42.
Proof.
  assert (H : skipn 29 (sha256.Sum256 Example.keyB) = [0; 0; 42])
    by (vm_compute; reflexivity).
  assert (H' : skipn 31 (sha256.Sum256 Example.keyB) = [42])
    by (vm_compute; reflexivity).
  pose proof (getOverlayAddr_10_8 sha256.Sum256 Sum256_size Example.keyB) as [T8 T24].
  split; [exact H|]. split; [exact (proj2 (T8 0 0 H) eq_refl eq_refl)|].
  split; [exact H'|]. exact (T24 H').
Defined.

Lemma getOverlayAddr_in_prefix_witness :
  isPrefix Example.net10 8 /\
  exists a,
    getOverlayAddr sha256.Sum256 Example.net10 Example.keyA = Some a /\
    length (net.IP a) = 4%nat /\
    (forall j, 0 <= j < 8 -> bit (net.IP a) j = bit [10; 0; 0; 0] j) /\
    net.Mask a = [255; 255; 255; 255] /\
    net.Size (net.Mask a) = (32, 32).
Proof.
  assert (P : isPrefix Example.net10 8).
  { unfold isPrefix; simpl. repeat split; try lia; left; reflexivity. }
  split; [exact P|].
  exact (getOverlayAddr_in_prefix sha256.Sum256 Sum256_size Example.net10 8 Example.keyA P).
Defined.

(** ** Peer configurations *)

Section PeerConfigFacts.

Variable Sum256 : list byte -> list byte.
Hypothesis Sum256_size : forall m, length (Sum256 m) = 32%nat.
Variable ParseIP : string -> net.IP_t.

(** [toPeerConfig] returns exactly when [getOverlayAddr] does, and then
    every field but the endpoint and the keepalive is fixed. *)
Lemma toPeerConfig_fields (p : Peer.t) (n : net.IPNet) (c : wgtypes.PeerConfig) :
  toPeerConfig Sum256 ParseIP p n = Some c ->
  wgtypes.PublicKey c = Peer.PublicKey p /\
  wgtypes.PresharedKey c = Some (Peer.PresharedKey p) /\
  wgtypes.Remove c = false /\ wgtypes.UpdateOnly c = false /\
  wgtypes.ReplaceAllowedIPs c = false /\
  exists addr, getOverlayAddr Sum256 n (Peer.PublicKey p) = Some addr /\
               wgtypes.AllowedIPs c = [addr].
Proof.
  unfold toPeerConfig.
  destruct (getOverlayAddr Sum256 n (Peer.PublicKey p)) as [addr|]; [|discriminate].
  intros E; injection E as <-.
  destruct (negb (Peer.Port p =? 0) && negb (Peer.IP p =? "")%string);
    destruct (negb (Peer.KeepaliveInterval p =? 0)); simpl; eauto 10.
Qed.

Lemma toPeerConfig_Some (p : Peer.t) (n : net.IPNet) (k : Key) (a : net.IPNet) :
  getOverlayAddr Sum256 n k = Some a ->
  exists c, toPeerConfig Sum256 ParseIP p n = Some c.
Proof.
  intros E. destruct (getOverlayAddr_any_key Sum256 Sum256_size n k (Peer.PublicKey p) a E)
    as [a' E'].
  unfold toPeerConfig. rewrite E'. eauto.
Qed.

Lemma toPeerConfig_prefix (p : Peer.t) (n : net.IPNet) (ones : Z) :
  isPrefix n ones -> exists c, toPeerConfig Sum256 ParseIP p n = Some c.
Proof.
  intros H. destruct (hostBytes_prefix n ones H) as (_ & H1 & H2 & _).
  destruct (proj2 (getOverlayAddr_Some_iff Sum256 Sum256_size n (Peer.PublicKey p)))
    as [a E]; [lia|].
  exact (toPeerConfig_Some p n _ a E).
Qed.

Lemma toPeerConfig_Endpoint (p : Peer.t) (n : net.IPNet) (c : wgtypes.PeerConfig) :
  toPeerConfig Sum256 ParseIP p n = Some c ->
  wgtypes.Endpoint c =
    if negb (Peer.Port p =? 0) && negb (Peer.IP p =? "")%string
    then Some {| net.UDP_IP := ParseIP (Peer.IP p); net.UDP_Port := Peer.Port p |}
    else None.
Proof.
  unfold toPeerConfig.
  destruct (getOverlayAddr Sum256 n (Peer.PublicKey p)) as [addr|]; [|discriminate].
  intros E; injection E as <-.
  destruct (negb (Peer.Port p =? 0) && negb (Peer.IP p =? "")%string);
    destruct (negb (Peer.KeepaliveInterval p =? 0)); reflexivity.
Qed.

(** C5, amended. For a peer record and a network prefix, the peer config
    always has its preshared-key field set, to the key of the record: it
    holds a secret other than the zero key exactly when the record does,
    and the zero key, not nil, for a record without a secret. *)
Theorem toPeerConfig_PresharedKey (p : Peer.t) (n : net.IPNet) (ones : Z) :
  isPrefix n ones ->
  exists c,
    toPeerConfig Sum256 ParseIP p n = Some c /\
    wgtypes.PresharedKey c = Some (Peer.PresharedKey p) /\
    ((exists k, wgtypes.PresharedKey c = Some k /\ k <> wgtypes.zeroKey) <->
     Peer.PresharedKey p <> wgtypes.zeroKey) /\
    (Peer.PresharedKey p = wgtypes.zeroKey ->
     wgtypes.PresharedKey c = Some wgtypes.zeroKey).
Proof.
  intros H. destruct (toPeerConfig_prefix p n ones H) as [c E].
  destruct (toPeerConfig_fields p n c E) as (_ & K & _).
  exists c. split; [exact E|]. split; [exact K|]. rewrite K. split.
  - split.
    + intros (k & Ek & Nk). injection Ek as <-. exact Nk.
    + intros Nk. eauto.
  - intros ->. reflexivity.
Qed.

(** C6. For a peer record and a network prefix, the peer config has no
    endpoint exactly when the record's port is 0 or its address text is
    empty; otherwise its endpoint is the parsed address text with the
    record's port. *)
Theorem toPeerConfig_endpoint_iff (p : Peer.t) (n : net.IPNet) (ones : Z) :
  isPrefix n ones ->
  exists c,
    toPeerConfig Sum256 ParseIP p n = Some c /\
    (wgtypes.Endpoint c = None <-> Peer.Port p = 0 \/ Peer.IP p = ""%string) /\
    (~ (Peer.Port p = 0 \/ Peer.IP p = ""%string) ->
     wgtypes.Endpoint c =
       Some {| net.UDP_IP := ParseIP (Peer.IP p); net.UDP_Port := Peer.Port p |}).
Proof.
  intros H. destruct (toPeerConfig_prefix p n ones H) as [c E].
  exists c. split; [exact E|]. rewrite (toPeerConfig_Endpoint p n c E).
  destruct (Z.eqb_spec (Peer.Port p) 0) as [P0|P0];
    destruct (String.eqb_spec (Peer.IP p) "") as [I0|I0]; simpl;
    (split; [split; [auto; discriminate | intros; try reflexivity; tauto] | tauto]).
Qed.

(** C9. A record with a nonzero port and a non-empty address text that
    [net.ParseIP] does not accept still gets an endpoint, whose address is
    nil. *)
Theorem toPeerConfig_unparseable_endpoint (p : Peer.t) (n : net.IPNet) (ones : Z) :
  isPrefix n ones ->
  Peer.Port p <> 0 -> Peer.IP p <> ""%string -> ParseIP (Peer.IP p) = [] ->
  exists c,
    toPeerConfig Sum256 ParseIP p n = Some c /\
    wgtypes.Endpoint c = Some {| net.UDP_IP := []; net.UDP_Port := Peer.Port p |}.
Proof.
  intros H P0 I0 N. destruct (toPeerConfig_prefix p n ones H) as [c E].
  exists c. split; [exact E|]. rewrite (toPeerConfig_Endpoint p n c E), N.
  destruct (Z.eqb_spec (Peer.Port p) 0); [contradiction|].
  destruct (String.eqb_spec (Peer.IP p) ""); [contradiction|]. reflexivity.
Qed.

End PeerConfigFacts.

Lemma isPrefix_net10 : isPrefix Example.net10 8.
Proof. unfold isPrefix; simpl. repeat split; try lia; left; reflexivity. Qed.

(** C5 as worded fails: a record without a secret (the zero key) gets a
    peer config whose preshared-key field is set, not nil. *)
Lemma toPeerConfig_PresharedKey_always_set :
  Peer.PresharedKey Example.peerBare = wgtypes.zeroKey /\
  (exists c,
     toPeerConfig sha256.Sum256 Example.ParseIP Example.peerBare Example.net10 = Some c /\
     wgtypes.PresharedKey c = Some wgtypes.zeroKey) /\
  ~ (forall (p : Peer.t) (c : wgtypes.PeerConfig),
       Peer.PresharedKey p = wgtypes.zeroKey ->
       toPeerConfig sha256.Sum256 Example.ParseIP p Example.net10 = Some c ->
       wgtypes.PresharedKey c = None).
Proof.
  split; [reflexivity|].
  assert (E : exists c,
             toPeerConfig sha256.Sum256 Example.ParseIP Example.peerBare Example.net10 = Some c /\
             wgtypes.PresharedKey c = Some wgtypes.zeroKey).
  { eexists. split; vm_compute; reflexivity. }
  split; [exact E|].
  intros H. destruct E as (c & E & K).
  rewrite (H Example.peerBare c eq_refl E) in K. discriminate K.
Qed.

Lemma toPeerConfig_PresharedKey_witness :
  isPrefix Example.net10 8 /\
  exists c,
    toPeerConfig sha256.Sum256 Example.ParseIP Example.peerP Example.net10 = Some c /\
    wgtypes.PresharedKey c = Some Example.secret /\
    ((exists k, wgtypes.PresharedKey c = Some k /\ k <> wgtypes.zeroKey) <->
     Example.secret <> wgtypes.zeroKey) /\
    (Example.secret = wgtypes.zeroKey -> wgtypes.PresharedKey c = Some wgtypes.zeroKey).
Proof.
  split; [exact isPrefix_net10|].
  exact (toPeerConfig_PresharedKey sha256.Sum256 Sum256_size Example.ParseIP
           Example.peerP Example.net10 8 isPrefix_net10).
Defined.

Lemma toPeerConfig_endpoint_iff_witness :
  isPrefix Example.net10 8 /\
  exists c,
    toPeerConfig sha256.Sum256 Example.ParseIP Example.peerP Example.net10 = Some c /\
    (wgtypes.Endpoint c = None <-> 51820 = 0 \/ "192.0.2.7"%string = ""%string) /\
    (~ (51820 = 0 \/ "192.0.2.7"%string = ""%string) ->
     wgtypes.Endpoint c =
       Some {| net.UDP_IP := Example.ParseIP "192.0.2.7"; net.UDP_Port := 51820 |}).
Proof.
  split; [exact isPrefix_net10|].
  exact (toPeerConfig_endpoint_iff sha256.Sum256 Sum256_size Example.ParseIP
           Example.peerP Example.net10 8 isPrefix_net10).
Defined.

Lemma toPeerConfig_unparseable_endpoint_witness :
  Example.ParseIP "not-an-ip" = [] /\
  exists c,
    toPeerConfig sha256.Sum256 Example.ParseIP Example.peerBadIP Example.net10 = Some c /\
    wgtypes.Endpoint c = Some {| net.UDP_IP := []; net.UDP_Port := 51820 |}.
Proof.
  split; [reflexivity|].
  apply (toPeerConfig_unparseable_endpoint sha256.Sum256 Sum256_size Example.ParseIP
           Example.peerBadIP Example.net10 8 isPrefix_net10).
  - simpl. lia.
  - simpl. discriminate.
  - reflexivity.
Defined.

(** ** Programs and traces *)

Lemma run_bind {A B} (env : Env) (p : Prog A) (f : A -> Prog B) :
  forall hist,
    run env (bind p f) hist =
    match run env p hist with
    | (Some a, t1) => let '(o, t2) := run env (f a) (hist ++ t1) in (o, t1 ++ t2)
    | (None, t1) => (None, t1)
    end.
Proof.
  induction p as [a| |e k IH]; intros hist; simpl.
  - rewrite app_nil_r. destruct (run env (f a) hist); reflexivity.
  - reflexivity.
  - rewrite IH. destruct (run env (k (env hist e)) (hist ++ [e])) as [[a|] t1]; simpl; auto.
    rewrite <- app_assoc. simpl.
    destruct (run env (f a) (hist ++ e :: t1)); reflexivity.
Qed.

Lemma submitted_app (t1 t2 : list Event) :
  submitted (t1 ++ t2) = submitted t1 ++ submitted t2.
Proof.
  induction t1 as [|e t1 IH]; simpl; auto. destruct e; simpl; rewrite ?IH; auto.
Qed.

Lemma timers_app (t1 t2 : list Event) : timers (t1 ++ t2) = timers t1 ++ timers t2.
Proof.
  induction t1 as [|e t1 IH]; simpl; auto. destruct e; simpl; rewrite ?IH; auto.
Qed.

(** ** The control plane keeps what it is not told to drop *)

Lemma applyPeer_keeps (dev : list Key) (c : wgtypes.PeerConfig) (k : Key) :
  wgtypes.Remove c = false -> In k dev -> In k (controlplane.applyPeer dev c).
Proof.
  intros R H. unfold controlplane.applyPeer. rewrite R.
  destruct (in_dec Key_eq_dec (wgtypes.PublicKey c) dev); auto.
  destruct (wgtypes.UpdateOnly c); auto. apply in_or_app; auto.
Qed.

Lemma applyPeers_keeps (cfg : wgtypes.Config) (dev : list Key) (k : Key) :
  wgtypes.ReplacePeers cfg = false ->
  (forall c, In c (wgtypes.Peers cfg) -> wgtypes.Remove c = false) ->
  In k dev -> In k (controlplane.applyPeers cfg dev).
Proof.
  intros R. unfold controlplane.applyPeers. rewrite R.
  generalize (wgtypes.Peers cfg) as cs. intros cs; revert dev.
  induction cs as [|c cs IH]; intros dev HR H; simpl; auto.
  apply IH; [intros; apply HR; right; auto|].
  apply applyPeer_keeps; auto. apply HR; left; auto.
Qed.

(** ** [AddPeers] *)

Section AddPeersFacts.

Variable Sum256 : list byte -> list byte.
Hypothesis Sum256_size : forall m, length (Sum256 m) = 32%nat.
Variable ParseIP : string -> net.IP_t.
Variable loopVar : LoopVar.

Local Abbreviation toPeerConfig := (toPeerConfig Sum256 ParseIP).
Local Abbreviation AddPeers_config := (AddPeers_config Sum256 ParseIP).
Local Abbreviation AddPeers_pointees := (AddPeers_pointees loopVar).
Local Abbreviation AddPeers := (AddPeers Sum256 ParseIP loopVar).

(** The loop appends, in order, the peer config of every record that is
    not the local node's, and of no other. *)
Lemma AddPeers_config_spec (s : State) (peers : list Peer.t) :
  forall acc config,
    AddPeers_config s peers acc = Some config ->
    exists cs,
      config = acc ++ cs /\
      Forall2 (fun p c => toPeerConfig p (OverlayNetwork s) = Some c) (others s peers) cs.
Proof.
  induction peers as [|p peers IH]; intros acc config; simpl.
  - intros E; injection E as <-. exists []. rewrite app_nil_r. split; constructor.
  - destruct (Key_eq_dec (Peer.PublicKey p) (PublicKey s)) as [Eq|Ne]; [apply IH|].
    destruct (toPeerConfig p (OverlayNetwork s)) as [c|] eqn:Ec; [|discriminate].
    intros E. apply IH in E. destruct E as (cs & -> & F).
    exists (c :: cs). rewrite <- app_assoc. split; [reflexivity|].
    constructor; assumption.
Qed.

(** On a state that satisfies [New]'s invariant the loop does not panic. *)
Lemma AddPeers_config_total (s : State) (peers : list Peer.t) :
  State_ok Sum256 s ->
  forall acc, exists config, AddPeers_config s peers acc = Some config.
Proof.
  intros Ok. induction peers as [|p peers IH]; intros acc; simpl; eauto.
  destruct (Key_eq_dec (Peer.PublicKey p) (PublicKey s)); [apply IH|].
  destruct (toPeerConfig_Some Sum256 Sum256_size ParseIP p _ _ _ Ok) as [c ->].
  apply IH.
Qed.

(** Whatever the loop variable, the pointers leave the identity, the
    allowed addresses, the endpoint and the flags of a peer config alone. *)
Lemma AddPeers_pointees_fields (peers : list Peer.t) (c : wgtypes.PeerConfig) :
  wgtypes.PublicKey (AddPeers_pointees peers c) = wgtypes.PublicKey c /\
  wgtypes.AllowedIPs (AddPeers_pointees peers c) = wgtypes.AllowedIPs c /\
  wgtypes.Endpoint (AddPeers_pointees peers c) = wgtypes.Endpoint c /\
  wgtypes.Remove (AddPeers_pointees peers c) = wgtypes.Remove c.
Proof.
  unfold AddPeers_pointees. destruct loopVar, (final peers); auto.
Qed.

(** When the record a peer config was made from is the last of the list,
    or each iteration has its own variable, the pointers still lead to what
    [toPeerConfig] saw. *)
Lemma AddPeers_pointees_last (peers : list Peer.t) (p : Peer.t) (n : net.IPNet)
    (c : wgtypes.PeerConfig) :
  toPeerConfig p n = Some c ->
  loopVar = PerIteration \/ final peers = Some p ->
  AddPeers_pointees peers c = c.
Proof.
  intros E H. unfold AddPeers_pointees.
  destruct loopVar; [|reflexivity].
  destruct H as [H|H]; [discriminate|]. rewrite H.
  unfold toPeerConfig in E.
  destruct (getOverlayAddr Sum256 n (Peer.PublicKey p)) as [addr|]; [|discriminate].
  injection E as <-.
  destruct (negb (Peer.Port p =? 0) && negb (Peer.IP p =? "")%string);
    destruct (negb (Peer.KeepaliveInterval p =? 0)); reflexivity.
Qed.

Lemma AddPeers_run (env : Env) (s : State) (peers : list Peer.t) (hist : list Event) :
  run env (AddPeers peers s) hist =
  match AddPeers_config s peers [] with
  | None => (None, [])
  | Some config =>
      let cfg := peersOnly (map (AddPeers_pointees peers) config) in
      (Some (match env hist (Client_ConfigureDevice (client s) (iface s) cfg) with
             | Some err => Some (Wrap err ("Could not set peers for " ++ iface s))
             | None => None
             end, s),
       [Client_ConfigureDevice (client s) (iface s) cfg])
  end.
Proof.
  unfold AddPeers.
  destruct (AddPeers_config s peers []) as [config|]; [|reflexivity].
  simpl. fold (peersOnly (map (AddPeers_pointees peers) config)).
  destruct (env hist (Client_ConfigureDevice (client s) (iface s)
                        (peersOnly (map (AddPeers_pointees peers) config))));
    reflexivity.
Qed.

(** What [AddPeers] submits: nothing when it panics, and otherwise one
    configuration, made of the peer configs of the records of others. *)
Lemma AddPeers_submitted (env : Env) (s : State) (peers : list Peer.t) (hist : list Event) :
  submitted (snd (run env (AddPeers peers s) hist)) = [] \/
  exists cs,
    Forall2 (fun p c => toPeerConfig p (OverlayNetwork s) = Some c) (others s peers) cs /\
    submitted (snd (run env (AddPeers peers s) hist)) =
      [(iface s, peersOnly (map (AddPeers_pointees peers) cs))].
Proof.
  rewrite AddPeers_run.
  destruct (AddPeers_config s peers []) as [config|] eqn:E; [right|left; reflexivity].
  apply AddPeers_config_spec in E. destruct E as (cs & -> & F).
  exists cs. split; [exact F|reflexivity].
Qed.

Lemma AddPeers_submitted_ok (env : Env) (s : State) (peers : list Peer.t)
    (hist : list Event) :
  State_ok Sum256 s ->
  exists cs,
    Forall2 (fun p c => toPeerConfig p (OverlayNetwork s) = Some c) (others s peers) cs /\
    submitted (snd (run env (AddPeers peers s) hist)) =
      [(iface s, peersOnly (map (AddPeers_pointees peers) cs))].
Proof.
  intros Ok. rewrite AddPeers_run.
  destruct (AddPeers_config_total s peers Ok []) as [config E].
  rewrite E.
  apply AddPeers_config_spec in E. destruct E as (cs & -> & F).
  exists cs. split; [exact F|reflexivity].
Qed.

Lemma others_configs (s : State) (ps : list Peer.t) (cs : list wgtypes.PeerConfig) :
  Forall2 (fun p c => toPeerConfig p (OverlayNetwork s) = Some c) (others s ps) cs ->
  forall c, In c (map (AddPeers_pointees ps) cs) ->
    wgtypes.PublicKey c <> PublicKey s /\ wgtypes.Remove c = false.
Proof.
  intros F c' I. apply in_map_iff in I. destruct I as (c & <- & I).
  destruct (AddPeers_pointees_fields ps c) as (-> & _ & _ & ->).
  assert (H : exists p, In p (others s ps) /\ toPeerConfig p (OverlayNetwork s) = Some c).
  { clear -F I. induction F as [|p c' ps' cs' Hpc F IH]; [contradiction|].
    destruct I as [<- | I].
    - exists p. split; [left; reflexivity | exact Hpc].
    - destruct (IH I) as (q & Iq & Eq). exists q. split; [right; exact Iq | exact Eq]. }
  destruct H as (p & Ip & Ec).
  apply filter_In in Ip. destruct Ip as [_ Np].
  destruct (Key_eq_dec (Peer.PublicKey p) (PublicKey s)) as [|Ne]; [discriminate|].
  destruct (toPeerConfig_fields Sum256 ParseIP p _ c Ec) as (K & _ & R & _).
  rewrite K. auto.
Qed.

(** C1. No configuration [AddPeers] submits holds a peer config with the
    local node's public key. For a list of two records, one with the local
    key and one, P, with another key, on a state that satisfies [New]'s
    invariant, it submits one configuration, holding one peer config, which
    has the public key of P and allows the address derived from it; that
    peer config is the one [toPeerConfig] makes of P when P comes last. *)
Theorem AddPeers_excludes_self (env : Env) (s : State) (hist : list Event) :
  (forall peers name cfg c,
     In (name, cfg) (submitted (snd (run env (AddPeers peers s) hist))) ->
     In c (wgtypes.Peers cfg) ->
     wgtypes.PublicKey c <> PublicKey s) /\
  (forall me P,
     State_ok Sum256 s ->
     Peer.PublicKey me = PublicKey s -> Peer.PublicKey P <> PublicKey s ->
     exists c c' addr,
       toPeerConfig P (OverlayNetwork s) = Some c /\
       submitted (snd (run env (AddPeers [me; P] s) hist)) = [(iface s, peersOnly [c])] /\
       submitted (snd (run env (AddPeers [P; me] s) hist)) = [(iface s, peersOnly [c'])] /\
       getOverlayAddr Sum256 (OverlayNetwork s) (Peer.PublicKey P) = Some addr /\
       wgtypes.PublicKey c = Peer.PublicKey P /\ wgtypes.AllowedIPs c = [addr] /\
       wgtypes.PublicKey c' = Peer.PublicKey P /\ wgtypes.AllowedIPs c' = [addr]).
Proof.
  split.
  - intros peers name cfg c I Ic.
    destruct (AddPeers_submitted env s peers hist) as [E | (cs & F & E)];
      rewrite E in I; [contradiction|].
    destruct I as [I | []]. injection I as <- <-.
    exact (proj1 (others_configs s peers cs F c Ic)).
  - intros me P Ok Eme NP.
    destruct (toPeerConfig_Some Sum256 Sum256_size ParseIP P _ _ _ Ok) as [c Ec].
    destruct (toPeerConfig_fields Sum256 ParseIP P _ c Ec) as (K & _ & _ & _ & _ & addr & Ea & A).
    destruct (AddPeers_pointees_fields [P; me] c) as (K' & A' & _).
    exists c, (AddPeers_pointees [P; me] c), addr.
    split; [exact Ec|].
    rewrite !AddPeers_run. simpl.
    destruct (Key_eq_dec (Peer.PublicKey me) (PublicKey s)) as [_|N]; [|contradiction].
    destruct (Key_eq_dec (Peer.PublicKey P) (PublicKey s)) as [Y|_]; [contradiction|].
    rewrite Ec. simpl.
    rewrite (AddPeers_pointees_last [me; P] P _ c Ec (or_intror eq_refl)).
    rewrite K', A'. repeat split; auto.
Qed.

(** C7. Every configuration [AddPeers] submits has [ReplacePeers] unset and
    no peer config marked [Remove], so that the control plane keeps every
    peer it had; on a state that satisfies [New]'s invariant there is
    exactly one such submission. *)
Theorem AddPeers_merges (env : Env) (s : State) (peers : list Peer.t) (hist : list Event) :
  (forall name cfg,
     In (name, cfg) (submitted (snd (run env (AddPeers peers s) hist))) ->
     wgtypes.ReplacePeers cfg = false /\
     (forall c, In c (wgtypes.Peers cfg) -> wgtypes.Remove c = false) /\
     (forall dev k, In k dev -> In k (controlplane.applyPeers cfg dev))) /\
  (State_ok Sum256 s ->
   exists cfg, submitted (snd (run env (AddPeers peers s) hist)) = [(iface s, cfg)]).
Proof.
  split.
  - intros name cfg I.
    destruct (AddPeers_submitted env s peers hist) as [E | (cs & F & E)];
      rewrite E in I; [contradiction|].
    destruct I as [I | []]. injection I as <- <-.
    assert (R : forall c, In c (wgtypes.Peers (peersOnly (map (AddPeers_pointees peers) cs))) ->
                          wgtypes.Remove c = false)
      by (intros c Ic; exact (proj2 (others_configs s peers cs F c Ic))).
    split; [reflexivity|]. split; [exact R|].
    intros dev k. apply applyPeers_keeps; [reflexivity | exact R].
  - intros Ok. destruct (AddPeers_submitted_ok env s peers hist Ok) as (cs & _ & E).
    eexists. exact E.
Qed.

End AddPeersFacts.

(** ** [DownInterface] *)

(** C8. When the device query answers an error that [os.IsNotExist]
    recognises, [DownInterface] returns nil, having made that query and no
    other call: it neither looks the link up nor deletes it. *)
Theorem DownInterface_absent (env : Env) (s : State) (hist : list Event) (err : error) :
  env hist (Client_Device (client s) (iface s)) = inr err ->
  os.IsNotExist err = true ->
  run env (DownInterface s) hist = (Some (None, s), [Client_Device (client s) (iface s)]).
Proof.
  intros E N. unfold DownInterface. simpl. rewrite E, N. reflexivity.
Qed.

Lemma DownInterface_absent_witness :
  run Example.envDown (DownInterface Example.self) [] =
    (Some (None, Example.self), [Client_Device (wgctrl.Handle 1) "wg0"]).
Proof.
  exact (DownInterface_absent Example.envDown Example.self []
           (ErrNotExist "no such device") eq_refl eq_refl).
Defined.

(** ** One reconciliation attempt *)

Lemma fetchPeers_run (env : Env) (server : net.TCPAddr) (hist : list Event) :
  exists r tr,
    run env (fetchPeers server) hist = (Some r, tr) /\ submitted tr = [] /\ timers tr = [].
Proof.
  unfold fetchPeers. simpl.
  destruct (env _ (http_Get _ _)) as [res|err]; simpl.
  - destruct (env _ (gob_Decode _)) as [peers|err]; simpl; eauto.
  - eauto.
Qed.

Lemma nextDelay_range (n : Z) :
  0 <= n < 2 ^ 63 -> 20 * time.Second <= nextDelay n < 40 * time.Second.
Proof.
  intros H. unfold nextDelay, wrap64, time.Second.
  pose proof (Z.rem_bound_pos n 20 ltac:(lia) ltac:(lia)) as R.
  rewrite (Z.mod_small (Z.rem n 20 + 20 + 2 ^ 63)) by lia.
  replace (Z.rem n 20 + 20 + 2 ^ 63 - 2 ^ 63) with (Z.rem n 20 + 20) by lia.
  rewrite Z.mod_small by lia. lia.
Qed.

Section UpdatePeersFacts.

Variable Sum256 : list byte -> list byte.
Hypothesis Sum256_size : forall m, length (Sum256 m) = 32%nat.
Variable ParseIP : string -> net.IP_t.
Variable loopVar : LoopVar.

Local Abbreviation AddPeers := (AddPeers Sum256 ParseIP loopVar).
Local Abbreviation updatePeers := (updatePeers Sum256 ParseIP loopVar).

(** The end of every attempt: the draw and the timer. *)
Lemma updatePeers_tail (env : Env) (wg : State) (hist : list Event) :
  run env (n <- do.rand_Int ;; do.timer_Send (nextDelay n) ;;; Ret (tt, wg)) hist =
  (Some (tt, wg), [rand_Int; timer_Send (nextDelay (env hist rand_Int))]).
Proof. reflexivity. Qed.

(** C2. With [rand.Int] answering a non-negative 63-bit number: when the
    directory fetch fails, the attempt submits nothing to the control plane,
    and hands back one timer, of a delay in [20s, 40s); and on a state that
    satisfies [New]'s invariant every attempt, whatever the directory and the
    control plane answer, returns after handing back one timer, of a delay in
    [20s, 40s). *)
Theorem updatePeers_nextDelay (env : Env) (serverAddr : net.TCPAddr) (preshardKey : Key)
    (s : State) (hist : list Event) :
  (forall h, 0 <= env h rand_Int < 2 ^ 63) ->
  (forall err tr0,
     run env (fetchPeers serverAddr) hist = (Some (inr err), tr0) ->
     exists tr d,
       run env (updatePeers serverAddr preshardKey s) hist = (Some (tt, s), tr) /\
       submitted tr = [] /\ timers tr = [d] /\
       20 * time.Second <= d < 40 * time.Second) /\
  (State_ok Sum256 s ->
   exists tr d,
     run env (updatePeers serverAddr preshardKey s) hist = (Some (tt, s), tr) /\
     timers tr = [d] /\
     20 * time.Second <= d < 40 * time.Second).
Proof.
  intros Hrand.
  assert (Fail : forall err tr0,
             run env (fetchPeers serverAddr) hist = (Some (inr err), tr0) ->
             exists tr d,
               run env (updatePeers serverAddr preshardKey s) hist = (Some (tt, s), tr) /\
               submitted tr = [] /\ timers tr = [d] /\
               20 * time.Second <= d < 40 * time.Second).
  { intros err tr0 E.
    destruct (fetchPeers_run env serverAddr hist) as (r & tr1 & E1 & S1 & T1).
    rewrite E in E1. injection E1 as <- <-.
    unfold updatePeers. rewrite run_bind, E.
    cbn [bind]. rewrite updatePeers_tail.
    eexists. eexists. split; [reflexivity|].
    rewrite submitted_app, timers_app, S1, T1. simpl.
    repeat split; try apply nextDelay_range; apply Hrand. }
  split; [exact Fail|].
  intros Ok.
  destruct (fetchPeers_run env serverAddr hist) as ([peers|err] & tr1 & E1 & S1 & T1).
  2:{ destruct (Fail err tr1 E1) as (tr & d & E & _ & T & R). eauto. }
  unfold updatePeers. rewrite run_bind, E1.
  rewrite !run_bind, AddPeers_run.
  destruct (AddPeers_config_total Sum256 Sum256_size ParseIP s
              (map (fun p => Peer.with_PresharedKey p preshardKey) peers) Ok [])
    as [config ->].
  cbv zeta.
  destruct (env (hist ++ tr1) (Client_ConfigureDevice (client s) (iface s) _))
    as [e|]; cbn [run bind do.logrus_Log do.rand_Int do.timer_Send call app];
    (eexists; eexists; split; [reflexivity|]);
    rewrite timers_app, T1; simpl;
    repeat split; try apply nextDelay_range; apply Hrand.
Qed.

End UpdatePeersFacts.

(** ** The local node state: invariant and frame *)

(** Follows a run through every answer the collaborators can give. *)
Ltac follow H :=
  simpl in H;
  repeat match type of H with
         | context [match ?x with _ => _ end] =>
             lazymatch x with
             | context [run _ _ _] => fail
             | _ => destruct x eqn:?; simpl in H
             end
         end;
  try discriminate H.

Section StateFacts.

Variable Sum256 : list byte -> list byte.
Variable ParseIP : string -> net.IP_t.
Variable ParseKey : string -> Key + error.
Variable PublicKeyOf : Key -> Key.
Variable IP_String : net.IP_t -> string.
Variable loopVar : LoopVar.

Local Abbreviation New := (New Sum256 ParseKey PublicKeyOf).
Local Abbreviation GetOverlayAddress := (GetOverlayAddress Sum256).
Local Abbreviation AddPeers := (AddPeers Sum256 ParseIP loopVar).
Local Abbreviation GetPeers := (GetPeers IP_String).
Local Abbreviation updatePeers := (updatePeers Sum256 ParseIP loopVar).

Lemma New_ok (env : Env) (iface : string) (port : Z) (overlayNet : net.IPNet)
    (privKey : string) (hist : list Event) (s : State) (tr : list Event) :
  run env (New iface port overlayNet privKey) hist = (Some (inl s), tr) ->
  (exists priv,
      ParseKey privKey = inl priv /\ privateKey s = priv /\
      PublicKey s = PublicKeyOf priv) /\
  OverlayNetwork s = overlayNet /\
  State_ok Sum256 s.
Proof.
  intros H. unfold New in H. follow H.
  injection H; intros; subst. unfold State_ok; simpl.
  split; [eexists; repeat split | split; [reflexivity | assumption]].
Qed.

Lemma GetOverlayAddress_keeps (k : Key) : keepsOverlay (GetOverlayAddress k).
Proof.
  intros env s hist a s' tr H. unfold GetOverlayAddress in H. follow H.
  injection H; intros; subst; auto.
Qed.

Lemma DownInterface_keeps : keepsOverlay DownInterface.
Proof.
  intros env s hist a s' tr H. unfold DownInterface in H. follow H.
  all: injection H; intros; subst; auto.
Qed.

Lemma SetUpInterface_keeps : keepsOverlay SetUpInterface.
Proof.
  intros env s hist a s' tr H. unfold SetUpInterface in H. follow H.
  all: injection H; intros; subst; auto.
Qed.

Lemma AddPeers_keeps (peers : list Peer.t) : keepsOverlay (AddPeers peers).
Proof.
  intros env s hist a s' tr H. rewrite AddPeers_run in H. follow H.
  all: injection H; intros; subst; auto.
Qed.

Lemma GetPeers_keeps : keepsOverlay GetPeers.
Proof.
  intros env s hist a s' tr H. unfold GetPeers in H. follow H.
  all: injection H; intros; subst; auto.
Qed.

Lemma updatePeers_keeps (serverAddr : net.TCPAddr) (preshardKey : Key) :
  keepsOverlay (updatePeers serverAddr preshardKey).
Proof.
  intros env s hist a s' tr H. unfold updatePeers in H.
  rewrite run_bind in H.
  destruct (fetchPeers_run env serverAddr hist) as ([peers|err] & tr1 & E1 & _).
  - rewrite E1, !run_bind, AddPeers_run in H.
    destruct (AddPeers_config Sum256 ParseIP s _ []) as [config|]; [|discriminate H].
    cbv zeta in H.
    destruct (env (hist ++ tr1) (Client_ConfigureDevice _ _ _)); simpl in H;
      injection H; intros; subst; auto.
  - rewrite E1 in H. follow H. injection H; intros; subst; auto.
Qed.

(** C10. A state [New] returns holds the public key of the parsed private
    key, the network it was given, and as overlay address the address
    derived from that network and that public key. [GetOverlayAddress]
    returns the address derived from the stored network and the key it is
    given (and panics when the derivation does). No method of the state,
    nor [updatePeers], changes the stored network or overlay address. *)
Theorem New_invariant :
  (forall env iface port overlayNet privKey hist s tr,
      run env (New iface port overlayNet privKey) hist = (Some (inl s), tr) ->
      (exists priv,
          ParseKey privKey = inl priv /\ privateKey s = priv /\
          PublicKey s = PublicKeyOf priv) /\
      OverlayNetwork s = overlayNet /\
      getOverlayAddr Sum256 (OverlayNetwork s) (PublicKey s) = Some (OverlayAddr s)) /\
  (forall env s k hist,
      run env (GetOverlayAddress k s) hist =
      (option_map (fun a => (a, s)) (getOverlayAddr Sum256 (OverlayNetwork s) k), [])) /\
  ((forall k, keepsOverlay (GetOverlayAddress k)) /\
   keepsOverlay DownInterface /\
   keepsOverlay SetUpInterface /\
   (forall peers, keepsOverlay (AddPeers peers)) /\
   keepsOverlay GetPeers /\
   (forall serverAddr preshardKey, keepsOverlay (updatePeers serverAddr preshardKey))).
Proof.
  split; [exact New_ok|]. split.
  - intros env s k hist. unfold GetOverlayAddress.
    destruct (getOverlayAddr Sum256 (OverlayNetwork s) k); reflexivity.
  - exact (conj GetOverlayAddress_keeps
             (conj DownInterface_keeps
                (conj SetUpInterface_keeps
                   (conj AddPeers_keeps (conj GetPeers_keeps updatePeers_keeps))))).
Qed.

End StateFacts.

(** ** The worked examples *)

Lemma self_ok : State_ok sha256.Sum256 Example.self.
Proof. vm_compute. reflexivity. Qed.

Lemma peerP_not_self : Peer.PublicKey Example.peerP <> PublicKey Example.self.
Proof. intros H. vm_compute in H. discriminate H. Qed.

Lemma env_rand (fetch : list Peer.t + error) (dev : wgtypes.Device + error) (n : Z) :
  0 <= n < 2 ^ 63 -> forall h, 0 <= Example.env fetch dev n h rand_Int < 2 ^ 63.
Proof. intros H h. exact H. Qed.

(** With one variable for the loop, the peer config of a record that is not
    the last of the list carries the last record's secret: here P's config
    carries the zero key of the record that follows it, not P's secret. *)
Example AddPeers_PerLoop_secret :
  map (fun nc => map wgtypes.PresharedKey (wgtypes.Peers (snd nc)))
      (submitted (snd (run Example.envUp
                         (AddPeers sha256.Sum256 Example.ParseIP PerLoop
                            [Example.peerP; Example.peerSelf] Example.self) [])))
    = [[Some wgtypes.zeroKey]] /\
  map (fun nc => map wgtypes.PresharedKey (wgtypes.Peers (snd nc)))
      (submitted (snd (run Example.envUp
                         (AddPeers sha256.Sum256 Example.ParseIP PerIteration
                            [Example.peerP; Example.peerSelf] Example.self) [])))
    = [[Some Example.secret]].
Proof. split; vm_compute; reflexivity. Qed.

Lemma AddPeers_excludes_self_witness :
  exists c c' addr,
    toPeerConfig sha256.Sum256 Example.ParseIP Example.peerP Example.net10 = Some c /\
    submitted (snd (run Example.envUp
                      (AddPeers sha256.Sum256 Example.ParseIP PerLoop
                         [Example.peerSelf; Example.peerP] Example.self) []))
      = [("wg0"%string, peersOnly [c])] /\
    submitted (snd (run Example.envUp
                      (AddPeers sha256.Sum256 Example.ParseIP PerLoop
                         [Example.peerP; Example.peerSelf] Example.self) []))
      = [("wg0"%string, peersOnly [c'])] /\
    getOverlayAddr sha256.Sum256 Example.net10 Example.keyB = Some addr /\
    wgtypes.PublicKey c = Example.keyB /\ wgtypes.AllowedIPs c = [addr] /\
    wgtypes.PublicKey c' = Example.keyB /\ wgtypes.AllowedIPs c' = [addr].
Proof.
  exact (proj2 (AddPeers_excludes_self sha256.Sum256 Sum256_size Example.ParseIP PerLoop
                  Example.envUp Example.self [])
           Example.peerSelf Example.peerP self_ok eq_refl peerP_not_self).
Defined.

Lemma AddPeers_merges_witness :
  exists cfg,
    submitted (snd (run Example.envUp
                      (AddPeers sha256.Sum256 Example.ParseIP PerLoop
                         [Example.peerSelf; Example.peerP] Example.self) []))
      = [("wg0"%string, cfg)] /\
    wgtypes.ReplacePeers cfg = false /\
    (forall c, In c (wgtypes.Peers cfg) -> wgtypes.Remove c = false) /\
    (forall dev k, In k dev -> In k (controlplane.applyPeers cfg dev)).
Proof.
  destruct (AddPeers_merges sha256.Sum256 Sum256_size Example.ParseIP PerLoop Example.envUp
              Example.self [Example.peerSelf; Example.peerP] []) as [H1 H2].
  destruct (H2 self_ok) as [cfg E]. exists cfg. split; [exact E|].
  apply (H1 "wg0"%string cfg). rewrite E. left. reflexivity.
Defined.

Lemma updatePeers_nextDelay_witness :
  (exists tr d,
     run Example.envDown
         (updatePeers sha256.Sum256 Example.ParseIP PerLoop Example.server Example.secret
            Example.self)
         [] = (Some (tt, Example.self), tr) /\
     submitted tr = [] /\ timers tr = [d] /\
     20 * time.Second <= d < 40 * time.Second) /\
  (exists tr d,
     run Example.envUp
         (updatePeers sha256.Sum256 Example.ParseIP PerLoop Example.server Example.secret
            Example.self)
         [] = (Some (tt, Example.self), tr) /\
     timers tr = [d] /\
     20 * time.Second <= d < 40 * time.Second).
Proof.
  split.
  - apply (proj1 (updatePeers_nextDelay sha256.Sum256 Sum256_size Example.ParseIP PerLoop
                    Example.envDown Example.server Example.secret Example.self []
                    (env_rand _ _ 12345 ltac:(lia)))
             (ErrOther "connection refused")
             [logrus_Log logrus.DebugLevel "Fetching peers from " None;
              http_Get (11 * time.Second) Example.server;
              logrus_Log logrus.ErrorLevel "Could not connect to server"
                (Some (ErrOther "connection refused"))]).
    reflexivity.
  - exact (proj2 (updatePeers_nextDelay sha256.Sum256 Sum256_size Example.ParseIP PerLoop
                    Example.envUp Example.server Example.secret Example.self []
                    (env_rand _ _ 1234567 ltac:(lia)))
             self_ok).
Defined.

Lemma New_invariant_witness :
  run Example.envUp
      (New sha256.Sum256 Example.ParseKey Example.PublicKeyOf "wg0" 0 Example.net10
         Example.privText) [] = (Some (inl Example.self), [wgctrl_New]) /\
  (exists priv,
      Example.ParseKey Example.privText = inl priv /\ privateKey Example.self = priv /\
      PublicKey Example.self = Example.PublicKeyOf priv) /\
  OverlayNetwork Example.self = Example.net10 /\
  getOverlayAddr sha256.Sum256 (OverlayNetwork Example.self) (PublicKey Example.self)
    = Some (OverlayAddr Example.self).
Proof.
  assert (E : run Example.envUp
                (New sha256.Sum256 Example.ParseKey Example.PublicKeyOf "wg0" 0 Example.net10
                   Example.privText) [] = (Some (inl Example.self), [wgctrl_New]))
    by (vm_compute; reflexivity).
  split; [exact E|].
  exact (proj1 (New_invariant sha256.Sum256 Example.ParseIP Example.ParseKey
                  Example.PublicKeyOf Example.IP_String PerLoop)
           Example.envUp "wg0"%string 0 Example.net10 Example.privText []
           Example.self [wgctrl_New] E).
Defined.

(** * Further properties *)

(** ** Overlay address derivation: bytes, panics, collisions *)

Section DeriveMore.

Variable Sum256 : list byte -> list byte.
Hypothesis Sum256_size : forall m, length (Sum256 m) = 32%nat.

(** The address is the base cut before its last [hostBytes] bytes, followed
    by the last [hostBytes] bytes of the digest. *)
Lemma getOverlayAddr_spliced (p : net.IPNet) (k : Key) :
  (hostBytes p <= length (net.IP p))%nat -> (hostBytes p <= 32)%nat ->
  getOverlayAddr Sum256 p k =
    Some {| net.IP := firstn (length (net.IP p) - hostBytes p) (net.IP p)
                        ++ skipn (32 - hostBytes p) (Sum256 k);
            net.Mask := net.CIDRMask (snd (net.Size (net.Mask p)))
                                     (snd (net.Size (net.Mask p))) |}.
Proof.
  intros H1 H2.
  destruct (getOverlayAddr_bytes Sum256 Sum256_size p k H1 H2) as (a & E & L & M & N).
  rewrite E. f_equal. destruct a as [ip m]. cbn [net.IP net.Mask] in *. rewrite M. f_equal.
  apply nth_error_ext. intros j. rewrite N.
  destruct (Nat.leb_spec (length (net.IP p) - hostBytes p) j) as [Hj|Hj]; cbn [andb].
  - rewrite nth_error_app2 by (rewrite length_firstn; lia).
    rewrite length_firstn, nth_error_skipn.
    replace (Nat.min (length (net.IP p) - hostBytes p) (length (net.IP p)))
      with (length (net.IP p) - hostBytes p)%nat by lia.
    destruct (Nat.ltb_spec j (length (net.IP p))) as [Hl|Hl].
    + f_equal. lia.
    + transitivity (@None byte).
      * apply nth_error_None. lia.
      * symmetry. apply nth_error_None. rewrite Sum256_size. lia.
  - rewrite nth_error_app1 by (rewrite length_firstn; lia).
    rewrite nth_error_firstn.
    destruct (Nat.ltb_spec j (length (net.IP p) - hostBytes p)); [reflexivity|lia].
Qed.

(** X1. When the mask leaves no more whole host bytes than the address has
    (and than the digest has), the derived address is the base address up to
    its last [hostBytes] bytes, followed by the last [hostBytes] bytes of the
    digest of the key, under a mask of [size] ones. *)
Theorem getOverlayAddr_splice (p : net.IPNet) (k : Key) :
  (hostBytes p <= length (net.IP p))%nat -> (hostBytes p <= 32)%nat ->
  getOverlayAddr Sum256 p k =
    Some {| net.IP := firstn (length (net.IP p) - hostBytes p) (net.IP p)
                        ++ skipn (32 - hostBytes p) (Sum256 k);
            net.Mask := net.CIDRMask (snd (net.Size (net.Mask p)))
                                     (snd (net.Size (net.Mask p))) |}.
Proof. exact (getOverlayAddr_spliced p k). Qed.

Lemma getOverlayAddr_None_iff (p : net.IPNet) (k : Key) :
  getOverlayAddr Sum256 p k = None <->
  (length (net.IP p) < hostBytes p)%nat \/ (32 < hostBytes p)%nat.
Proof.
  pose proof (getOverlayAddr_Some_iff Sum256 Sum256_size p k) as [F B].
  split.
  - intros E.
    destruct (Nat.le_gt_cases (hostBytes p) (length (net.IP p))) as [H1|H1]; [|left; lia].
    destruct (Nat.le_gt_cases (hostBytes p) 32) as [H2|H2]; [|right; lia].
    destruct (B (conj H1 H2)) as [a Ea]. congruence.
  - intros H. destruct (getOverlayAddr Sum256 p k) as [a|] eqn:E; [|reflexivity].
    destruct (F (ex_intro _ a eq_refl)). lia.
Qed.

(** X2. [getOverlayAddr] panics exactly when the mask leaves more whole host
    bytes than the address has bytes, or more than the 32 of the digest; the
    key plays no part in it. *)
Theorem getOverlayAddr_panics_iff (p : net.IPNet) (k : Key) :
  getOverlayAddr Sum256 p k = None <->
  (length (net.IP p) < hostBytes p)%nat \/ (32 < hostBytes p)%nat.
Proof. exact (getOverlayAddr_None_iff p k). Qed.

(** X4. Under a prefix that leaves fewer than eight host bits, every key
    derives the same address: the base address itself, under the full mask. *)
Theorem getOverlayAddr_narrow_prefix (p : net.IPNet) (ones : Z) (k : Key) :
  isPrefix p ones -> 8 * len (net.IP p) - 8 < ones ->
  getOverlayAddr Sum256 p k =
    Some {| net.IP := net.IP p; net.Mask := repeat 255 (length (net.IP p)) |}.
Proof.
  intros HP Hn. destruct (hostBytes_prefix p ones HP) as (HS & H1 & H2 & _).
  assert (H0 : hostBytes p = 0%nat).
  { unfold hostBytes. rewrite HS. destruct HP as (Hb & Ho & _).
    rewrite Z.quot_small by lia. reflexivity. }
  rewrite getOverlayAddr_spliced by lia. rewrite H0, HS. cbn [snd].
  rewrite Nat.sub_0_r, firstn_all.
  replace (skipn (32 - 0) (Sum256 k)) with (@nil byte)
    by (symmetry; apply skipn_all2; rewrite Sum256_size; lia).
  rewrite app_nil_r. f_equal. f_equal.
  destruct HP as ([Hb | Hb] & _); rewrite Hb; unfold len in Hb;
    [replace (length (net.IP p)) with 4%nat by lia
    |replace (length (net.IP p)) with 16%nat by lia]; reflexivity.
Qed.

(** X5. Two keys derive the same address under a prefix exactly when their
    digests end in the same [hostBytes] bytes. *)
Theorem getOverlayAddr_collide_iff (p : net.IPNet) (k1 k2 : Key) :
  (hostBytes p <= length (net.IP p))%nat -> (hostBytes p <= 32)%nat ->
  (getOverlayAddr Sum256 p k1 = getOverlayAddr Sum256 p k2 <->
   skipn (32 - hostBytes p) (Sum256 k1) = skipn (32 - hostBytes p) (Sum256 k2)).
Proof.
  intros H1 H2. rewrite !getOverlayAddr_spliced by assumption. split.
  - intros E. injection E as E. exact (app_inv_head _ _ _ E).
  - intros ->. reflexivity.
Qed.

End DeriveMore.

(** X3. Under a mask that is not ones followed by zeros, the derived address
    is the base address unchanged, and its mask is nil, not a full mask. *)
Theorem getOverlayAddr_noncanonical_mask (Sum256 : list byte -> list byte)
    (p : net.IPNet) (k : Key) :
  net.simpleMaskLength (net.Mask p) = -1 ->
  getOverlayAddr Sum256 p k = Some {| net.IP := net.IP p; net.Mask := [] |}.
Proof.
  intros H. unfold getOverlayAddr, net.Size. rewrite H. reflexivity.
Qed.

Lemma getOverlayAddr_splice_witness :
  getOverlayAddr sha256.Sum256 Example.net10 Example.keyA =
    Some {| net.IP := [10] ++ skipn 29 (sha256.Sum256 Example.keyA);
            net.Mask := [255; 255; 255; 255] |}.
Proof.
  exact (getOverlayAddr_splice sha256.Sum256 Sum256_size Example.net10 Example.keyA
           ltac:(vm_compute; lia) ltac:(vm_compute; lia)).
Defined.

Lemma getOverlayAddr_panics_iff_witness :
  getOverlayAddr sha256.Sum256 Cases.netShort Example.keyA = None.
Proof.
  apply (getOverlayAddr_panics_iff sha256.Sum256 Sum256_size Cases.netShort Example.keyA).
  left. vm_compute. lia.
Defined.

Lemma getOverlayAddr_narrow_prefix_witness :
  getOverlayAddr sha256.Sum256 Cases.net10_30 Example.keyA =
    Some {| net.IP := [10; 0; 0; 0]; net.Mask := [255; 255; 255; 255] |} /\
  getOverlayAddr sha256.Sum256 Cases.net10_30 Example.keyB =
    Some {| net.IP := [10; 0; 0; 0]; net.Mask := [255; 255; 255; 255] |}.
Proof.
  assert (P : isPrefix Cases.net10_30 30).
  { unfold isPrefix; simpl. repeat split; try lia; left; reflexivity. }
  split.
  - exact (getOverlayAddr_narrow_prefix sha256.Sum256 Sum256_size Cases.net10_30 30
             Example.keyA P ltac:(simpl; lia)).
  - exact (getOverlayAddr_narrow_prefix sha256.Sum256 Sum256_size Cases.net10_30 30
             Example.keyB P ltac:(simpl; lia)).
Defined.

Lemma getOverlayAddr_collide_iff_witness :
  getOverlayAddr sha256.Sum256 Example.net10_24 Example.keyA =
  getOverlayAddr sha256.Sum256 Example.net10_24 Example.keyB.
Proof.
  apply (getOverlayAddr_collide_iff sha256.Sum256 Sum256_size Example.net10_24
           Example.keyA Example.keyB ltac:(vm_compute; lia) ltac:(vm_compute; lia)).
  vm_compute. reflexivity.
Defined.

Lemma getOverlayAddr_noncanonical_mask_witness :
  getOverlayAddr sha256.Sum256 Cases.netHoles Example.keyA =
    Some {| net.IP := [10; 0; 0; 0]; net.Mask := [] |}.
Proof.
  exact (getOverlayAddr_noncanonical_mask sha256.Sum256 Cases.netHoles Example.keyA eq_refl).
Defined.

(** ** Peer configurations: keepalive, allowed addresses, device peers *)

Section PeerConfigMore.

Variable Sum256 : list byte -> list byte.
Hypothesis Sum256_size : forall m, length (Sum256 m) = 32%nat.
Variable ParseIP : string -> net.IP_t.
Variable IP_String : net.IP_t -> string.

Lemma toPeerConfig_Keepalive (p : Peer.t) (n : net.IPNet) (c : wgtypes.PeerConfig) :
  toPeerConfig Sum256 ParseIP p n = Some c ->
  wgtypes.PersistentKeepaliveInterval c =
    if Peer.KeepaliveInterval p =? 0 then None else Some (Peer.KeepaliveInterval p).
Proof.
  unfold toPeerConfig.
  destruct (getOverlayAddr Sum256 n (Peer.PublicKey p)) as [addr|]; [|discriminate].
  intros E; injection E as <-.
  destruct (negb (Peer.Port p =? 0) && negb (Peer.IP p =? "")%string);
    destruct (Peer.KeepaliveInterval p =? 0); reflexivity.
Qed.

(** X6. For a peer record and a network prefix, the peer config has a
    keepalive exactly when the record's interval is not zero, and then that
    interval; it allows one address, the one derived from the record's public
    key, under the full mask, and does not ask to replace the allowed
    addresses the peer already has. *)
Theorem toPeerConfig_keepalive_allowed (p : Peer.t) (n : net.IPNet) (ones : Z) :
  isPrefix n ones ->
  exists c addr,
    toPeerConfig Sum256 ParseIP p n = Some c /\
    (wgtypes.PersistentKeepaliveInterval c = None <-> Peer.KeepaliveInterval p = 0) /\
    (Peer.KeepaliveInterval p <> 0 ->
     wgtypes.PersistentKeepaliveInterval c = Some (Peer.KeepaliveInterval p)) /\
    getOverlayAddr Sum256 n (Peer.PublicKey p) = Some addr /\
    wgtypes.AllowedIPs c = [addr] /\
    net.Mask addr = repeat 255 (length (net.IP n)) /\
    wgtypes.ReplaceAllowedIPs c = false.
Proof.
  intros H. destruct (toPeerConfig_prefix Sum256 Sum256_size ParseIP p n ones H) as [c E].
  destruct (toPeerConfig_fields Sum256 ParseIP p n c E) as (_ & _ & _ & _ & R & addr & Ea & A).
  exists c, addr. split; [exact E|].
  rewrite (toPeerConfig_Keepalive p n c E).
  destruct (Z.eqb_spec (Peer.KeepaliveInterval p) 0) as [K0|K0].
  - split; [tauto|]. split; [contradiction|]. split; [exact Ea|]. split; [exact A|].
    split; [|exact R].
    destruct (hostBytes_prefix n ones H) as (HS & H1 & H2 & _).
    rewrite getOverlayAddr_spliced in Ea by (assumption || lia).
    injection Ea as <-. cbn [net.Mask]. rewrite HS. cbn [snd].
    destruct H as ([Hb | Hb] & _); rewrite Hb; unfold len in Hb;
      [replace (length (net.IP n)) with 4%nat by lia
      |replace (length (net.IP n)) with 16%nat by lia]; reflexivity.
  - split; [split; [discriminate | contradiction]|]. split; [reflexivity|].
    split; [exact Ea|]. split; [exact A|]. split; [|exact R].
    destruct (hostBytes_prefix n ones H) as (HS & H1 & H2 & _).
    rewrite getOverlayAddr_spliced in Ea by (assumption || lia).
    injection Ea as <-. cbn [net.Mask]. rewrite HS. cbn [snd].
    destruct H as ([Hb | Hb] & _); rewrite Hb; unfold len in Hb;
      [replace (length (net.IP n)) with 4%nat by lia
      |replace (length (net.IP n)) with 16%nat by lia]; reflexivity.
Qed.

(** X7. A peer as the device reports it, turned into a record by
    [fromWgtypesPeer] and back into a peer config by [toPeerConfig], keeps its
    public key, its preshared key and a keepalive that is not zero. It keeps
    the address and port of its endpoint when the port is not zero and the
    address prints to a text that parses back to it; an endpoint with port 0
    is lost, and a peer without endpoint gets none. *)
Theorem fromWgtypesPeer_toPeerConfig (wp : wgtypes.Peer) (n : net.IPNet) (ones : Z) :
  isPrefix n ones ->
  exists c,
    toPeerConfig Sum256 ParseIP (fromWgtypesPeer IP_String wp) n = Some c /\
    wgtypes.PublicKey c = wgtypes.Peer_PublicKey wp /\
    wgtypes.PresharedKey c = Some (wgtypes.Peer_PresharedKey wp) /\
    wgtypes.PersistentKeepaliveInterval c =
      (if wgtypes.Peer_PersistentKeepaliveInterval wp =? 0 then None
       else Some (wgtypes.Peer_PersistentKeepaliveInterval wp)) /\
    (wgtypes.Peer_Endpoint wp = None -> wgtypes.Endpoint c = None) /\
    (forall ep, wgtypes.Peer_Endpoint wp = Some ep -> net.UDP_Port ep = 0 ->
                wgtypes.Endpoint c = None) /\
    (forall ep, wgtypes.Peer_Endpoint wp = Some ep ->
                net.UDP_Port ep <> 0 ->
                IP_String (net.UDP_IP ep) <> ""%string ->
                ParseIP (IP_String (net.UDP_IP ep)) = net.UDP_IP ep ->
                exists e, wgtypes.Endpoint c = Some e /\
                          net.UDP_IP e = net.UDP_IP ep /\ net.UDP_Port e = net.UDP_Port ep).
Proof.
  intros H.
  destruct (toPeerConfig_prefix Sum256 Sum256_size ParseIP (fromWgtypesPeer IP_String wp)
              n ones H) as [c E].
  destruct (toPeerConfig_fields Sum256 ParseIP _ n c E) as (K & P & _).
  pose proof (toPeerConfig_Keepalive _ n c E) as KA.
  pose proof (toPeerConfig_Endpoint Sum256 ParseIP _ n c E) as EP.
  exists c. split; [exact E|]. unfold fromWgtypesPeer in *.
  destruct (wgtypes.Peer_Endpoint wp) as [ep0|]; cbn [Peer.PublicKey Peer.PresharedKey
    Peer.KeepaliveInterval Peer.IP Peer.Port] in *.
  - repeat split; auto; try discriminate.
    + intros ep Eq Z0. injection Eq as ->. rewrite EP, Z0. reflexivity.
    + intros ep Eq NZ NE RT. injection Eq as ->. rewrite EP, RT.
      destruct (Z.eqb_spec (net.UDP_Port ep) 0); [contradiction|].
      destruct (String.eqb_spec (IP_String (net.UDP_IP ep)) ""); [contradiction|].
      eexists. split; [reflexivity|]. split; reflexivity.
  - repeat split; auto; discriminate.
Qed.

End PeerConfigMore.

Lemma toPeerConfig_keepalive_allowed_witness :
  exists c addr,
    toPeerConfig sha256.Sum256 Example.ParseIP Cases.peerKeep Example.net10 = Some c /\
    (wgtypes.PersistentKeepaliveInterval c = None <-> 25 * time.Second = 0) /\
    (25 * time.Second <> 0 ->
     wgtypes.PersistentKeepaliveInterval c = Some (25 * time.Second)) /\
    getOverlayAddr sha256.Sum256 Example.net10 Example.keyB = Some addr /\
    wgtypes.AllowedIPs c = [addr] /\
    net.Mask addr = [255; 255; 255; 255] /\
    wgtypes.ReplaceAllowedIPs c = false.
Proof.
  exact (toPeerConfig_keepalive_allowed sha256.Sum256 Sum256_size Example.ParseIP
           Cases.peerKeep Example.net10 8 isPrefix_net10).
Defined.

Lemma fromWgtypesPeer_toPeerConfig_witness :
  Example.ParseIP (Cases.IP_String (net.UDP_IP Cases.endpoint)) = net.UDP_IP Cases.endpoint /\
  exists c e,
    toPeerConfig sha256.Sum256 Example.ParseIP
      (fromWgtypesPeer Cases.IP_String Cases.devicePeer) Example.net10 = Some c /\
    wgtypes.PublicKey c = Example.keyB /\
    wgtypes.Endpoint c = Some e /\
    net.UDP_IP e = net.UDP_IP Cases.endpoint /\ net.UDP_Port e = 51820.
Proof.
  assert (RT : Example.ParseIP (Cases.IP_String (net.UDP_IP Cases.endpoint))
               = net.UDP_IP Cases.endpoint) by (vm_compute; reflexivity).
  split; [exact RT|].
  destruct (fromWgtypesPeer_toPeerConfig sha256.Sum256 Sum256_size Example.ParseIP
              Cases.IP_String Cases.devicePeer Example.net10 8 isPrefix_net10)
    as (c & E & K & _ & _ & _ & _ & Ep).
  destruct (Ep Cases.endpoint eq_refl ltac:(simpl; lia)
              ltac:(vm_compute; discriminate) RT) as (e & Ee & Ei & Epo).
  exists c, e. repeat split; assumption.
Defined.

(** ** [AddPeers]: what is submitted, and when it panics *)

Lemma Forall2_map_right {A B C} (R : A -> B -> Prop) (Q : A -> C -> Prop) (f : B -> C)
    (l : list A) (cs : list B) :
  (forall a b, R a b -> Q a (f b)) -> Forall2 R l cs -> Forall2 Q l (map f cs).
Proof.
  intros H F. induction F; simpl; constructor; auto.
Qed.

Lemma Forall2_maps {A B C} (R : A -> B -> Prop) (f : A -> C) (g : B -> C)
    (l : list A) (cs : list B) :
  (forall a b, R a b -> g b = f a) -> Forall2 R l cs -> map g cs = map f l.
Proof.
  intros H F. induction F; simpl; [reflexivity|]. f_equal; auto.
Qed.

Section AddPeersMore.

Variable Sum256 : list byte -> list byte.
Hypothesis Sum256_size : forall m, length (Sum256 m) = 32%nat.
Variable ParseIP : string -> net.IP_t.

Local Abbreviation toPeerConfig := (toPeerConfig Sum256 ParseIP).
Local Abbreviation AddPeers_config := (AddPeers_config Sum256 ParseIP).
Local Abbreviation AddPeers := (AddPeers Sum256 ParseIP).

Lemma AddPeers_run_keys (loopVar : LoopVar) (env : Env) (s : State)
    (peers : list Peer.t) (hist : list Event) :
  State_ok Sum256 s ->
  exists cfg,
    run env (AddPeers loopVar peers s) hist =
      (Some (match env hist (Client_ConfigureDevice (client s) (iface s) cfg) with
             | Some err => Some (Wrap err ("Could not set peers for " ++ iface s))
             | None => None
             end, s),
       [Client_ConfigureDevice (client s) (iface s) cfg]) /\
    map wgtypes.PublicKey (wgtypes.Peers cfg) = map Peer.PublicKey (others s peers) /\
    wgtypes.PrivateKey cfg = None /\ wgtypes.ListenPort cfg = None.
Proof.
  intros Ok. rewrite AddPeers_run.
  destruct (AddPeers_config_total Sum256 Sum256_size ParseIP s peers Ok []) as [config E].
  rewrite E. apply AddPeers_config_spec in E. destruct E as (cs & -> & F).
  eexists. split; [reflexivity|]. split; [|split; reflexivity].
  cbn [app peersOnly wgtypes.Peers]. rewrite map_map.
  apply (Forall2_maps _ _ _ _ _ (fun p c E =>
           eq_trans (proj1 (AddPeers_pointees_fields loopVar peers c))
                    (proj1 (toPeerConfig_fields Sum256 ParseIP p _ c E))) F).
Qed.

(** X8. On a state that satisfies [New]'s invariant, [AddPeers] returns after
    exactly one call, a [ConfigureDevice] on the state's interface whose peer
    configs have the public keys of the records that are not the local
    node's, in the order of the list (repeated records repeated), and which
    sets neither private key nor listen port. It returns nil when the control
    plane accepts, and otherwise the control plane's error wrapped in a
    message naming the interface. *)
Theorem AddPeers_submits_others (loopVar : LoopVar) (env : Env) (s : State)
    (peers : list Peer.t) (hist : list Event) :
  State_ok Sum256 s ->
  exists cfg,
    run env (AddPeers loopVar peers s) hist =
      (Some (match env hist (Client_ConfigureDevice (client s) (iface s) cfg) with
             | Some err => Some (Wrap err ("Could not set peers for " ++ iface s))
             | None => None
             end, s),
       [Client_ConfigureDevice (client s) (iface s) cfg]) /\
    map wgtypes.PublicKey (wgtypes.Peers cfg) = map Peer.PublicKey (others s peers) /\
    wgtypes.PrivateKey cfg = None /\ wgtypes.ListenPort cfg = None.
Proof. exact (AddPeers_run_keys loopVar env s peers hist). Qed.

Lemma AddPeers_config_only_self (s : State) (peers : list Peer.t) :
  (forall p, In p peers -> Peer.PublicKey p = PublicKey s) ->
  forall acc, AddPeers_config s peers acc = Some acc.
Proof.
  induction peers as [|p peers IH]; intros H acc; simpl; [reflexivity|].
  destruct (Key_eq_dec (Peer.PublicKey p) (PublicKey s)) as [_|N].
  - apply IH. intros q Iq. apply H. right. exact Iq.
  - exfalso. apply N. apply H. left. reflexivity.
Qed.

(** X9. For a list that is empty, or holds only records with the local
    node's public key, [AddPeers] still calls the control plane once, with a
    configuration of no peers; it does so on any state, and does not panic. *)
Theorem AddPeers_only_self (loopVar : LoopVar) (env : Env) (s : State)
    (peers : list Peer.t) (hist : list Event) :
  (forall p, In p peers -> Peer.PublicKey p = PublicKey s) ->
  exists r,
    run env (AddPeers loopVar peers s) hist =
      (Some (r, s), [Client_ConfigureDevice (client s) (iface s) (peersOnly [])]).
Proof.
  intros H. rewrite AddPeers_run, (AddPeers_config_only_self s peers H []).
  eexists. reflexivity.
Qed.

(** X10. When each iteration of the loop has its own variable, the peer
    configs [AddPeers] submits are those [toPeerConfig] makes of the records
    that are not the local node's, in order. *)
Theorem AddPeers_PerIteration_configs (env : Env) (s : State) (peers : list Peer.t)
    (hist : list Event) :
  State_ok Sum256 s ->
  exists cfg,
    submitted (snd (run env (AddPeers PerIteration peers s) hist)) = [(iface s, cfg)] /\
    Forall2 (fun p c => toPeerConfig p (OverlayNetwork s) = Some c)
            (others s peers) (wgtypes.Peers cfg).
Proof.
  intros Ok.
  destruct (AddPeers_submitted_ok Sum256 Sum256_size ParseIP PerIteration env s peers hist Ok)
    as (cs & F & E).
  eexists. split; [exact E|]. cbn [peersOnly wgtypes.Peers].
  replace (map (AddPeers_pointees PerIteration peers) cs) with cs; [exact F|].
  clear. induction cs; simpl; [reflexivity|]. f_equal. assumption.
Qed.

(** X11. When the loop has one variable for all its iterations, every peer
    config [AddPeers] submits carries the preshared key of the last record of
    the list, whichever record it was made from, and, where its own record
    has a keepalive, the keepalive interval of the last record; its public
    key stays that of its own record. *)
Theorem AddPeers_PerLoop_configs (env : Env) (s : State) (peers : list Peer.t)
    (lastp : Peer.t) (hist : list Event) :
  State_ok Sum256 s -> final peers = Some lastp ->
  exists cfg,
    submitted (snd (run env (AddPeers PerLoop peers s) hist)) = [(iface s, cfg)] /\
    Forall2 (fun p c =>
               wgtypes.PublicKey c = Peer.PublicKey p /\
               wgtypes.PresharedKey c = Some (Peer.PresharedKey lastp) /\
               wgtypes.PersistentKeepaliveInterval c =
                 if Peer.KeepaliveInterval p =? 0 then None
                 else Some (Peer.KeepaliveInterval lastp))
            (others s peers) (wgtypes.Peers cfg).
Proof.
  intros Ok L.
  destruct (AddPeers_submitted_ok Sum256 Sum256_size ParseIP PerLoop env s peers hist Ok)
    as (cs & F & E).
  eexists. split; [exact E|]. cbn [peersOnly wgtypes.Peers].
  apply (Forall2_map_right _ _ _ _ _) with (2 := F).
  intros p c Ec. unfold AddPeers_pointees. rewrite L.
  cbn [wgtypes.PublicKey wgtypes.PresharedKey wgtypes.PersistentKeepaliveInterval].
  destruct (toPeerConfig_fields Sum256 ParseIP p _ c Ec) as (K & P & _).
  rewrite K, P, (toPeerConfig_Keepalive Sum256 ParseIP p _ c Ec).
  destruct (Peer.KeepaliveInterval p =? 0); auto.
Qed.

Lemma AddPeers_config_None_iff (s : State) (peers : list Peer.t) :
  forall acc,
    AddPeers_config s peers acc = None <->
    others s peers <> [] /\
    ((length (net.IP (OverlayNetwork s)) < hostBytes (OverlayNetwork s))%nat \/
     (32 < hostBytes (OverlayNetwork s))%nat).
Proof.
  induction peers as [|p peers IH]; intros acc; simpl.
  - split; [discriminate | intros [H _]; contradiction].
  - destruct (Key_eq_dec (Peer.PublicKey p) (PublicKey s)) as [_|N]; [apply IH|].
    pose proof (getOverlayAddr_None_iff Sum256 Sum256_size (OverlayNetwork s)
                  (Peer.PublicKey p)) as PI.
    unfold toPeerConfig at 1.
    destruct (getOverlayAddr Sum256 (OverlayNetwork s) (Peer.PublicKey p)) as [a|].
    + match goal with |- context [AddPeers_config s peers ?acc'] =>
        rewrite (IH acc') end.
      split; [intros [_ H] | intros [_ H]]; apply PI in H; discriminate.
    + split; [|reflexivity]. intros _. split; [discriminate|]. apply PI. reflexivity.
Qed.

(** X12. [AddPeers] panics exactly when the list holds a record that is not
    the local node's and the stored network leaves more whole host bytes
    than its address (or the digest) has; it then has made no call. *)
Theorem AddPeers_panics_iff (loopVar : LoopVar) (env : Env) (s : State)
    (peers : list Peer.t) (hist : list Event) :
  (fst (run env (AddPeers loopVar peers s) hist) = None <->
   others s peers <> [] /\
   ((length (net.IP (OverlayNetwork s)) < hostBytes (OverlayNetwork s))%nat \/
    (32 < hostBytes (OverlayNetwork s))%nat)) /\
  (fst (run env (AddPeers loopVar peers s) hist) = None ->
   snd (run env (AddPeers loopVar peers s) hist) = []).
Proof.
  rewrite AddPeers_run. rewrite <- (AddPeers_config_None_iff s peers []).
  destruct (AddPeers_config s peers []) as [config|]; cbn [fst snd].
  - split; [split; discriminate | discriminate].
  - split; [split; reflexivity | reflexivity].
Qed.

End AddPeersMore.

Lemma AddPeers_submits_others_witness :
  exists cfg,
    run Cases.envRefuse
        (AddPeers sha256.Sum256 Example.ParseIP PerLoop
           [Example.peerP; Example.peerSelf; Cases.peerKeep] Example.self) [] =
      (Some (Some (Wrap (ErrOther "operation not permitted") "Could not set peers for wg0"),
             Example.self),
       [Client_ConfigureDevice (wgctrl.Handle 1) "wg0" cfg]) /\
    map wgtypes.PublicKey (wgtypes.Peers cfg) = [Example.keyB; Example.keyB] /\
    wgtypes.PrivateKey cfg = None /\ wgtypes.ListenPort cfg = None.
Proof.
  exact (AddPeers_submits_others sha256.Sum256 Sum256_size Example.ParseIP PerLoop
           Cases.envRefuse Example.self [Example.peerP; Example.peerSelf; Cases.peerKeep] []
           self_ok).
Defined.

Lemma AddPeers_only_self_witness :
  exists r,
    run Example.envUp
        (AddPeers sha256.Sum256 Example.ParseIP PerLoop [Example.peerSelf] Cases.selfShort) [] =
      (Some (r, Cases.selfShort),
       [Client_ConfigureDevice (wgctrl.Handle 1) "wg0" (peersOnly [])]).
Proof.
  apply (AddPeers_only_self sha256.Sum256 Example.ParseIP PerLoop Example.envUp
           Cases.selfShort [Example.peerSelf] []).
  intros p [<- | []]. reflexivity.
Defined.

Lemma AddPeers_PerIteration_configs_witness :
  exists cfg,
    submitted (snd (run Example.envUp
                      (AddPeers sha256.Sum256 Example.ParseIP PerIteration
                         [Example.peerP; Example.peerSelf] Example.self) []))
      = [("wg0"%string, cfg)] /\
    Forall2 (fun p c => toPeerConfig sha256.Sum256 Example.ParseIP p Example.net10 = Some c)
            (others Example.self [Example.peerP; Example.peerSelf]) (wgtypes.Peers cfg).
Proof.
  exact (AddPeers_PerIteration_configs sha256.Sum256 Sum256_size Example.ParseIP
           Example.envUp Example.self [Example.peerP; Example.peerSelf] [] self_ok).
Defined.

Lemma AddPeers_PerLoop_configs_witness :
  exists cfg,
    submitted (snd (run Example.envUp
                      (AddPeers sha256.Sum256 Example.ParseIP PerLoop
                         [Cases.peerKeep; Example.peerSelf] Example.self) []))
      = [("wg0"%string, cfg)] /\
    Forall2 (fun p c =>
               wgtypes.PublicKey c = Peer.PublicKey p /\
               wgtypes.PresharedKey c = Some wgtypes.zeroKey /\
               wgtypes.PersistentKeepaliveInterval c =
                 if Peer.KeepaliveInterval p =? 0 then None else Some 0)
            (others Example.self [Cases.peerKeep; Example.peerSelf]) (wgtypes.Peers cfg).
Proof.
  exact (AddPeers_PerLoop_configs sha256.Sum256 Sum256_size Example.ParseIP
           Example.envUp Example.self [Cases.peerKeep; Example.peerSelf] Example.peerSelf []
           self_ok eq_refl).
Defined.

Lemma AddPeers_panics_iff_witness :
  run Example.envUp
      (AddPeers sha256.Sum256 Example.ParseIP PerLoop [Example.peerP] Cases.selfShort) []
    = (None, []).
Proof.
  destruct (AddPeers_panics_iff sha256.Sum256 Sum256_size Example.ParseIP PerLoop
              Example.envUp Cases.selfShort [Example.peerP] []) as [[_ B] T].
  assert (F : fst (run Example.envUp
                     (AddPeers sha256.Sum256 Example.ParseIP PerLoop [Example.peerP]
                        Cases.selfShort) []) = None).
  { apply B. split; [vm_compute; discriminate | left; vm_compute; lia]. }
  specialize (T F).
  destruct (run Example.envUp _ []) as [o t]. simpl in F, T. subst. reflexivity.
Defined.

(** ** [fetchPeers] *)

(** X13. [fetchPeers] never panics. When the request fails it returns the
    request's error as it is, after logging it, and decodes nothing; when the
    request succeeds it returns what decoding the body gives, a list of
    records or the decoder's error as it is. *)
Theorem fetchPeers_result (env : Env) (server : net.TCPAddr) (hist : list Event) :
  let h1 := hist ++ [logrus_Log logrus.DebugLevel "Fetching peers from " None] in
  let get := http_Get (11 * time.Second) server in
  (forall err, env h1 get = inr err ->
     run env (fetchPeers server) hist =
       (Some (inr err),
        [logrus_Log logrus.DebugLevel "Fetching peers from " None; get;
         logrus_Log logrus.ErrorLevel "Could not connect to server" (Some err)])) /\
  (forall res, env h1 get = inl res ->
     fst (run env (fetchPeers server) hist) = Some (env (h1 ++ [get]) (gob_Decode res))).
Proof.
  cbv zeta. split.
  - intros err E. unfold fetchPeers. simpl in E |- *. rewrite E. reflexivity.
  - intros res E. unfold fetchPeers. simpl in E |- *. rewrite E. simpl.
    destruct (env _ (gob_Decode res)); reflexivity.
Qed.

(** X14. [fetchPeers] closes the response body exactly once when the request
    succeeded, as the last thing it does and whether or not the body decoded;
    it closes nothing when the request failed. *)
Theorem fetchPeers_closes_body (env : Env) (server : net.TCPAddr) (hist : list Event) :
  let h1 := hist ++ [logrus_Log logrus.DebugLevel "Fetching peers from " None] in
  let get := http_Get (11 * time.Second) server in
  (forall res, env h1 get = inl res ->
     closed (snd (run env (fetchPeers server) hist)) = [res] /\
     exists tr0, snd (run env (fetchPeers server) hist) = tr0 ++ [Body_Close res]) /\
  (forall err, env h1 get = inr err ->
     closed (snd (run env (fetchPeers server) hist)) = []).
Proof.
  cbv zeta. split.
  - intros res E. unfold fetchPeers. simpl in E |- *. rewrite E. simpl.
    destruct (env _ (gob_Decode res)); simpl; (split; [reflexivity|]).
    + eexists [_; _; _; _]. reflexivity.
    + eexists [_; _; _; _]. reflexivity.
  - intros err E. unfold fetchPeers. simpl in E |- *. rewrite E. reflexivity.
Qed.

Lemma fetchPeers_result_witness :
  run Example.envDown (fetchPeers Example.server) [] =
    (Some (inr (ErrOther "connection refused")),
     [logrus_Log logrus.DebugLevel "Fetching peers from " None;
      http_Get (11 * time.Second) Example.server;
      logrus_Log logrus.ErrorLevel "Could not connect to server"
        (Some (ErrOther "connection refused"))]) /\
  fst (run Cases.envGarbled (fetchPeers Example.server) []) =
    Some (inr (ErrOther "unexpected EOF")) /\
  fst (run Example.envUp (fetchPeers Example.server) []) =
    Some (inl [Example.peerSelf; Example.peerP]).
Proof.
  split; [|split].
  - exact (proj1 (fetchPeers_result Example.envDown Example.server []) _ eq_refl).
  - exact (proj2 (fetchPeers_result Cases.envGarbled Example.server []) _ eq_refl).
  - exact (proj2 (fetchPeers_result Example.envUp Example.server []) _ eq_refl).
Defined.

Lemma fetchPeers_closes_body_witness :
  closed (snd (run Cases.envGarbled (fetchPeers Example.server) [])) = [http.Body 1] /\
  closed (snd (run Example.envUp (fetchPeers Example.server) [])) = [http.Body 1] /\
  closed (snd (run Example.envDown (fetchPeers Example.server) [])) = [].
Proof.
  split; [|split].
  - exact (proj1 (proj1 (fetchPeers_closes_body Cases.envGarbled Example.server []) _ eq_refl)).
  - exact (proj1 (proj1 (fetchPeers_closes_body Example.envUp Example.server []) _ eq_refl)).
  - exact (proj2 (fetchPeers_closes_body Example.envDown Example.server []) _ eq_refl).
Defined.

(** ** The delay between attempts *)

(** X15. For a non-negative draw the delay is a whole number of seconds,
    20 plus the draw modulo 20, computed without overflow; each of the twenty
    delays from 20s to 39s is the delay of some draw. *)
Theorem nextDelay_whole_seconds (n : Z) :
  0 <= n < 2 ^ 63 ->
  nextDelay n = (20 + n mod 20) * time.Second /\
  (forall k, 20 <= k < 40 ->
             exists m, 0 <= m < 2 ^ 63 /\ nextDelay m = k * time.Second).
Proof.
  intros H.
  assert (G : forall m, 0 <= m < 2 ^ 63 -> nextDelay m = (20 + m mod 20) * time.Second).
  { intros m Hm. unfold nextDelay, wrap64, time.Second.
    rewrite Z.rem_mod_nonneg by lia.
    pose proof (Z.mod_pos_bound m 20 ltac:(lia)) as R.
    rewrite (Z.mod_small (m mod 20 + 20 + 2 ^ 63)) by lia.
    replace (m mod 20 + 20 + 2 ^ 63 - 2 ^ 63) with (m mod 20 + 20) by lia.
    rewrite Z.mod_small by lia. lia. }
  split; [exact (G n H)|].
  intros k Hk. exists (k - 20). split; [lia|].
  rewrite G by lia. rewrite Z.mod_small by lia. f_equal. lia.
Qed.

Lemma nextDelay_whole_seconds_witness :
  nextDelay 1234567 = 27 * time.Second.
Proof.
  exact (proj1 (nextDelay_whole_seconds 1234567 ltac:(lia))).
Defined.

(** ** [updatePeers]: what a successful fetch leads to *)

Lemma final_In {A} (l : list A) (a : A) : final l = Some a -> In a l.
Proof.
  induction l as [|x l IH]; simpl; [discriminate|].
  destruct l as [|y l].
  - intros E; injection E as ->. left. reflexivity.
  - intros E. right. exact (IH E).
Qed.

Lemma Forall2_in_right {A B} (R : A -> B -> Prop) (l : list A) (cs : list B) (c : B) :
  Forall2 R l cs -> In c cs -> exists a, In a l /\ R a c.
Proof.
  intros F I. induction F as [|a c' l' cs' Hac F IH]; [contradiction|].
  destruct I as [<- | I].
  - exists a. split; [left; reflexivity | exact Hac].
  - destruct (IH I) as (q & Iq & Rq). exists q. split; [right; exact Iq | exact Rq].
Qed.

Lemma others_stamped (s : State) (k : Key) (peers : list Peer.t) :
  others s (map (fun p => Peer.with_PresharedKey p k) peers) =
  map (fun p => Peer.with_PresharedKey p k) (others s peers).
Proof.
  unfold others. induction peers as [|p peers IH]; simpl; [reflexivity|].
  destruct (Key_eq_dec (Peer.PublicKey p) (PublicKey s)); simpl; rewrite IH; reflexivity.
Qed.

Section UpdatePeersMore.

Variable Sum256 : list byte -> list byte.
Hypothesis Sum256_size : forall m, length (Sum256 m) = 32%nat.
Variable ParseIP : string -> net.IP_t.
Variable loopVar : LoopVar.

Local Abbreviation toPeerConfig := (toPeerConfig Sum256 ParseIP).
Local Abbreviation AddPeers := (AddPeers Sum256 ParseIP loopVar).
Local Abbreviation updatePeers := (updatePeers Sum256 ParseIP loopVar).

Lemma updatePeers_submitted (env : Env) (serverAddr : net.TCPAddr) (preshardKey : Key)
    (s : State) (hist : list Event) :
  submitted (snd (run env (updatePeers serverAddr preshardKey s) hist)) = [] \/
  exists peers tr1,
    submitted (snd (run env (updatePeers serverAddr preshardKey s) hist)) =
    submitted (snd (run env (AddPeers (map (fun p => Peer.with_PresharedKey p preshardKey)
                                           peers) s) (hist ++ tr1))).
Proof.
  destruct (fetchPeers_run env serverAddr hist) as ([peers|err] & tr1 & E1 & S1 & T1).
  - right. exists peers, tr1. unfold updatePeers.
    rewrite run_bind, E1, !run_bind. rewrite !AddPeers_run.
    destruct (AddPeers_config Sum256 ParseIP s _ []) as [config|].
    + cbv zeta. destruct (env (hist ++ tr1) (Client_ConfigureDevice _ _ _));
        cbn [run bind do.logrus_Log do.rand_Int do.timer_Send call app snd];
        rewrite submitted_app, S1; reflexivity.
    + cbn [snd]. rewrite submitted_app, S1. reflexivity.
  - left. unfold updatePeers. rewrite run_bind, E1.
    cbn [run bind do.rand_Int do.timer_Send call app snd].
    rewrite submitted_app, S1. reflexivity.
Qed.

(** X16. Every peer config an attempt submits carries the preshared key the
    attempt was given, whatever keys the directory sent and whichever
    variable the loop of [AddPeers] has. *)
Theorem updatePeers_stamps_secret (env : Env) (serverAddr : net.TCPAddr) (preshardKey : Key)
    (s : State) (hist : list Event) (name : string) (cfg : wgtypes.Config)
    (c : wgtypes.PeerConfig) :
  In (name, cfg) (submitted (snd (run env (updatePeers serverAddr preshardKey s) hist))) ->
  In c (wgtypes.Peers cfg) ->
  wgtypes.PresharedKey c = Some preshardKey.
Proof.
  intros I Ic.
  destruct (updatePeers_submitted env serverAddr preshardKey s hist)
    as [E | (peers & tr1 & E)]; rewrite E in I; [contradiction|].
  set (stamped := map (fun p => Peer.with_PresharedKey p preshardKey) peers) in *.
  destruct (AddPeers_submitted Sum256 ParseIP loopVar env s stamped (hist ++ tr1))
    as [E' | (cs & F & E')]; rewrite E' in I; [contradiction|].
  destruct I as [I | []]. injection I as <- <-.
  cbn [peersOnly wgtypes.Peers] in Ic. apply in_map_iff in Ic.
  destruct Ic as (c0 & <- & I0).
  destruct (Forall2_in_right _ _ _ _ F I0) as (p & Ip & Ec).
  assert (St : forall q, In q stamped -> Peer.PresharedKey q = preshardKey).
  { intros q Iq. apply in_map_iff in Iq. destruct Iq as (q0 & <- & _). reflexivity. }
  apply filter_In in Ip. destruct Ip as [Ip _].
  destruct (toPeerConfig_fields Sum256 ParseIP p _ c0 Ec) as (_ & P & _).
  unfold AddPeers_pointees.
  destruct loopVar; [|rewrite P, (St p Ip); reflexivity].
  destruct (final stamped) as [lastp|] eqn:L; [|rewrite P, (St p Ip); reflexivity].
  cbn [wgtypes.PresharedKey]. rewrite P. cbn [option_map].
  rewrite (St lastp (final_In _ _ L)). reflexivity.
Qed.

(** X17. On a state that satisfies [New]'s invariant, an attempt whose fetch
    succeeds makes, after the fetch, one submission to the control plane,
    whose peer configs have the public keys of the fetched records that are
    not the local node's, in order. When the control plane refuses, the
    attempt logs the wrapped error and goes on: in both cases it logs [Added
    peers], draws the delay and hands back the timer, and returns. *)
Theorem updatePeers_after_fetch (env : Env) (serverAddr : net.TCPAddr) (preshardKey : Key)
    (s : State) (hist : list Event) (peers : list Peer.t) (tr1 : list Event) :
  State_ok Sum256 s ->
  run env (fetchPeers serverAddr) hist = (Some (inl peers), tr1) ->
  exists cfg n,
    run env (updatePeers serverAddr preshardKey s) hist =
      (Some (tt, s),
       tr1 ++ Client_ConfigureDevice (client s) (iface s) cfg
           :: match env (hist ++ tr1) (Client_ConfigureDevice (client s) (iface s) cfg) with
              | Some e =>
                  [logrus_Log logrus.ErrorLevel "Could not add peers"
                     (Some (Wrap e ("Could not set peers for " ++ iface s)))]
              | None => []
              end
           ++ [logrus_Log logrus.DebugLevel "Added peers: " None; rand_Int;
               timer_Send (nextDelay n)]) /\
    map wgtypes.PublicKey (wgtypes.Peers cfg) = map Peer.PublicKey (others s peers).
Proof.
  intros Ok E1. unfold updatePeers. rewrite run_bind, E1, !run_bind.
  set (stamped := map (fun p => Peer.with_PresharedKey p preshardKey) peers).
  destruct (AddPeers_run_keys Sum256 Sum256_size ParseIP loopVar env s stamped
              (hist ++ tr1) Ok) as (cfg & R & K & _).
  rewrite R. exists cfg.
  destruct (env (hist ++ tr1) (Client_ConfigureDevice (client s) (iface s) cfg)) as [e|];
    cbn [run bind do.logrus_Log do.rand_Int do.timer_Send call app];
    (eexists; split; [reflexivity|]);
    rewrite K; unfold stamped; rewrite others_stamped, map_map; reflexivity.
Qed.

End UpdatePeersMore.

Lemma updatePeers_stamps_secret_witness :
  exists name cfg c,
    In (name, cfg)
       (submitted (snd (run Example.envUp
                          (updatePeers sha256.Sum256 Example.ParseIP PerLoop Example.server
                             Cases.meshSecret Example.self) []))) /\
    In c (wgtypes.Peers cfg) /\
    wgtypes.PresharedKey c = Some Cases.meshSecret.
Proof.
  assert (H : exists name cfg c,
             In (name, cfg)
                (submitted (snd (run Example.envUp
                                   (updatePeers sha256.Sum256 Example.ParseIP PerLoop
                                      Example.server Cases.meshSecret Example.self) []))) /\
             In c (wgtypes.Peers cfg)).
  { do 3 eexists. split; [vm_compute; left; reflexivity | simpl; left; reflexivity]. }
  destruct H as (name & cfg & c & I & Ic). exists name, cfg, c.
  split; [exact I|]. split; [exact Ic|].
  exact (updatePeers_stamps_secret sha256.Sum256 Example.ParseIP PerLoop Example.envUp
           Example.server Cases.meshSecret Example.self [] name cfg c I Ic).
Defined.

Lemma updatePeers_after_fetch_witness :
  exists cfg n,
    run Cases.envRefuse
        (updatePeers sha256.Sum256 Example.ParseIP PerLoop Example.server Cases.meshSecret
           Example.self) [] =
      (Some (tt, Example.self),
       Cases.fetched
         ++ Client_ConfigureDevice (wgctrl.Handle 1) "wg0" cfg
         :: [logrus_Log logrus.ErrorLevel "Could not add peers"
               (Some (Wrap (ErrOther "operation not permitted")
                           "Could not set peers for wg0"))]
         ++ [logrus_Log logrus.DebugLevel "Added peers: " None; rand_Int;
             timer_Send (nextDelay n)]) /\
    map wgtypes.PublicKey (wgtypes.Peers cfg) = [Example.keyB].
Proof.
  exact (updatePeers_after_fetch sha256.Sum256 Sum256_size Example.ParseIP PerLoop
           Cases.envRefuse Example.server Cases.meshSecret Example.self []
           [Example.peerSelf; Example.peerP] Cases.fetched self_ok eq_refl).
Defined.

(** ** [DownInterface]: the branches that find a device *)

(** X18. When the device query fails for another reason than absence,
    [DownInterface] returns that error as it is and makes no other call; when
    the device is there and the link lookup fails, it returns the lookup's
    error and deletes nothing; when both succeed it asks to delete the link
    found and returns what the deletion answers. *)
Theorem DownInterface_cases (env : Env) (s : State) (hist : list Event) :
  let dev := Client_Device (client s) (iface s) in
  let byName := netlink_LinkByName (iface s) in
  (forall err, env hist dev = inr err -> os.IsNotExist err = false ->
     run env (DownInterface s) hist = (Some (Some err, s), [dev])) /\
  (forall d err, env hist dev = inl d -> env (hist ++ [dev]) byName = inr err ->
     run env (DownInterface s) hist = (Some (Some err, s), [dev; byName])) /\
  (forall d link, env hist dev = inl d -> env (hist ++ [dev]) byName = inl link ->
     run env (DownInterface s) hist =
       (Some (env ((hist ++ [dev]) ++ [byName]) (netlink_LinkDel link), s),
        [dev; byName; netlink_LinkDel link])).
Proof.
  cbv zeta. unfold DownInterface. simpl. repeat split.
  - intros err E N. rewrite E, N. reflexivity.
  - intros d err E E'. rewrite E. simpl. rewrite E'. reflexivity.
  - intros d link E E'. rewrite E. simpl. rewrite E'. reflexivity.
Qed.

Lemma DownInterface_cases_witness :
  run Cases.envDenied (DownInterface Example.self) [] =
    (Some (Some (ErrOther "permission denied"), Example.self),
     [Client_Device (wgctrl.Handle 1) "wg0"]) /\
  run Cases.envNoLink (DownInterface Example.self) [] =
    (Some (Some (ErrOther "link not found"), Example.self),
     [Client_Device (wgctrl.Handle 1) "wg0"; netlink_LinkByName "wg0"]) /\
  run Example.envUp (DownInterface Example.self) [] =
    (Some (None, Example.self),
     [Client_Device (wgctrl.Handle 1) "wg0"; netlink_LinkByName "wg0";
      netlink_LinkDel Cases.link0]).
Proof.
  destruct (DownInterface_cases Cases.envDenied Example.self []) as (A & _ & _).
  destruct (DownInterface_cases Cases.envNoLink Example.self []) as (_ & B & _).
  destruct (DownInterface_cases Example.envUp Example.self []) as (_ & _ & C).
  split; [exact (A _ eq_refl eq_refl)|].
  split; [exact (B _ _ eq_refl eq_refl)|].
  exact (C _ Cases.link0 eq_refl eq_refl).
Defined.

(** ** [SetUpInterface] *)

(** Follows [SetUpInterface] through every answer of the collaborators. *)
Ltac setup_cases env :=
  unfold SetUpInterface; simpl;
  repeat match goal with
         | |- context [match env ?h ?e with _ => _ end] =>
             let a := fresh "a" in destruct (env h e) as [a|]; simpl
         end.

(** X19. [SetUpInterface] returns nil exactly when it has made its seven
    calls: create the link, give the device the private key (and the listen
    port unless it is 0) with no peers, look the link up, set its address to
    the stored overlay address, set its MTU to 1280, bring it up, and add the
    route to the stored network. What the route call answers does not count. *)
Theorem SetUpInterface_nil_iff (env : Env) (s : State) (hist : list Event) :
  fst (run env (SetUpInterface s) hist) = Some (None, s) <->
  exists link, snd (run env (SetUpInterface s) hist) = setupCalls s link.
Proof.
  unfold setupCalls. setup_cases env;
    (split; [intros H; try discriminate H; eexists; reflexivity
            | intros [link H]; try discriminate H; reflexivity]).
Qed.

Opaque String.append.

(** X20. [SetUpInterface] never panics and never asks to delete a link, so
    a setup that fails after creating the link leaves it there; its calls
    are always the first of its seven, in order; and an error it returns is a
    collaborator's error wrapped in a message that ends in the interface's
    name. *)
Theorem SetUpInterface_failures (env : Env) (s : State) (hist : list Event) :
  (exists r, fst (run env (SetUpInterface s) hist) = Some (r, s)) /\
  deleted (snd (run env (SetUpInterface s) hist)) = [] /\
  (exists link n, snd (run env (SetUpInterface s) hist) = firstn n (setupCalls s link)) /\
  (forall e, fst (run env (SetUpInterface s) hist) = Some (Some e, s) ->
             exists cause msg, e = Wrap cause (msg ++ iface s)).
Proof.
  unfold setupCalls. setup_cases env;
    (split; [eexists; reflexivity|]; split; [reflexivity|]; split;
     [| intros x H; try discriminate H; injection H as <-; eexists; eexists; reflexivity]).
  all: try match goal with
           | l : netlink.Link |- _ =>
               first [ exists l, 7%nat; reflexivity | exists l, 6%nat; reflexivity
                     | exists l, 5%nat; reflexivity | exists l, 4%nat; reflexivity ]
           end.
  all: first [ exists {| netlink.Index := 0; netlink.Name := "" |}, 3%nat; reflexivity
             | exists {| netlink.Index := 0; netlink.Name := "" |}, 2%nat; reflexivity
             | exists {| netlink.Index := 0; netlink.Name := "" |}, 1%nat; reflexivity ].
Qed.

Transparent String.append.

Lemma SetUpInterface_nil_iff_witness :
  fst (run Cases.envNoRoute (SetUpInterface Example.self) []) = Some (None, Example.self).
Proof.
  apply (SetUpInterface_nil_iff Cases.envNoRoute Example.self []).
  exists Cases.link0. reflexivity.
Defined.

Lemma SetUpInterface_failures_witness :
  exists cause msg,
    fst (run Cases.envNoAddr (SetUpInterface Example.self) []) =
      Some (Some (Wrap cause (msg ++ "wg0")), Example.self) /\
    snd (run Cases.envNoAddr (SetUpInterface Example.self) []) =
      firstn 4 (setupCalls Example.self Cases.link0).
Proof.
  destruct (SetUpInterface_failures Cases.envNoAddr Example.self []) as (_ & _ & _ & W).
  destruct (W (Wrap (ErrOther "invalid argument") "Could not set address for wg0") eq_refl)
    as (cause & msg & E).
  exists cause, msg. change (msg ++ "wg0")%string with (msg ++ iface Example.self)%string.
  rewrite <- E. split; reflexivity.
Defined.

(** ** [New] and what a state it returns can do *)

Section NewMore.

Variable Sum256 : list byte -> list byte.
Hypothesis Sum256_size : forall m, length (Sum256 m) = 32%nat.
Variable ParseIP : string -> net.IP_t.
Variable ParseKey : string -> Key + error.
Variable PublicKeyOf : Key -> Key.

Local Abbreviation New := (New Sum256 ParseKey PublicKeyOf).

(** X21. Given a network prefix, [New] does not panic and makes one call,
    the one that opens the control plane: it creates no link. It returns an
    error exactly when that call fails or the private key does not parse,
    each wrapped in a message of its own, the first taking precedence; and
    otherwise a state with the interface name, the port, the control-plane
    handle and the parsed key it was given. *)
Theorem New_results (env : Env) (iface0 : string) (port0 : Z) (overlayNet : net.IPNet)
    (privKey : string) (hist : list Event) (ones : Z) :
  isPrefix overlayNet ones ->
  snd (run env (New iface0 port0 overlayNet privKey) hist) = [wgctrl_New] /\
  (forall err, env hist wgctrl_New = inr err ->
     fst (run env (New iface0 port0 overlayNet privKey) hist) =
       Some (inr (Wrap err "Could not instantiate wireguard client"))) /\
  (forall c err, env hist wgctrl_New = inl c -> ParseKey privKey = inr err ->
     fst (run env (New iface0 port0 overlayNet privKey) hist) =
       Some (inr (Wrap err "Could not parse private key"))) /\
  (forall c k, env hist wgctrl_New = inl c -> ParseKey privKey = inl k ->
     exists s,
       fst (run env (New iface0 port0 overlayNet privKey) hist) = Some (inl s) /\
       iface s = iface0 /\ port s = port0 /\ client s = c /\ privateKey s = k).
Proof.
  intros HP. destruct (hostBytes_prefix overlayNet ones HP) as (_ & H1 & H2 & _).
  assert (D : forall k, exists a, getOverlayAddr Sum256 overlayNet k = Some a)
    by (intros k; apply (getOverlayAddr_Some_iff Sum256 Sum256_size); lia).
  unfold New. simpl. repeat split.
  - destruct (env hist wgctrl_New); [|reflexivity].
    destruct (ParseKey privKey) as [k|]; [|reflexivity].
    destruct (D (PublicKeyOf k)) as [a ->]. reflexivity.
  - intros err ->. reflexivity.
  - intros c err -> ->. reflexivity.
  - intros c k -> ->. destruct (D (PublicKeyOf k)) as [a ->].
    eexists. simpl. repeat split.
Qed.

(** X22. On a state [New] returned, [AddPeers] never panics, whatever the
    list and the collaborators: it makes its one call and returns; and
    [GetOverlayAddress] returns for every key, giving for the node's own
    public key the stored overlay address. *)
Theorem New_then_use (env : Env) (iface0 : string) (port0 : Z) (overlayNet : net.IPNet)
    (privKey : string) (hist : list Event) (s : State) (tr : list Event) :
  run env (New iface0 port0 overlayNet privKey) hist = (Some (inl s), tr) ->
  (forall loopVar env' peers hist',
     exists r cfg,
       run env' (AddPeers Sum256 ParseIP loopVar peers s) hist' =
         (Some (r, s), [Client_ConfigureDevice (client s) (iface s) cfg])) /\
  (forall env' k hist',
     exists a, run env' (GetOverlayAddress Sum256 k s) hist' = (Some (a, s), [])) /\
  (forall env' hist',
     run env' (GetOverlayAddress Sum256 (PublicKey s) s) hist' = (Some (OverlayAddr s, s), [])).
Proof.
  intros E.
  destruct (New_ok Sum256 ParseKey PublicKeyOf env iface0 port0 overlayNet privKey hist s tr E)
    as (_ & _ & Ok).
  repeat split.
  - intros loopVar env' peers hist'.
    destruct (AddPeers_run_keys Sum256 Sum256_size ParseIP loopVar env' s peers hist' Ok)
      as (cfg & R & _).
    eexists. exists cfg. exact R.
  - intros env' k hist'. unfold GetOverlayAddress.
    destruct (getOverlayAddr_any_key Sum256 Sum256_size _ _ k _ Ok) as [a ->].
    exists a. reflexivity.
  - intros env' hist'. unfold GetOverlayAddress. unfold State_ok in Ok. rewrite Ok.
    reflexivity.
Qed.

End NewMore.

Lemma New_results_witness :
  fst (run Cases.envNoClient
         (New sha256.Sum256 Example.ParseKey Example.PublicKeyOf "wg0" 0 Example.net10
            "not a key") []) =
    Some (inr (Wrap (ErrOther "netlink: permission denied")
                    "Could not instantiate wireguard client")) /\
  fst (run Example.envUp
         (New sha256.Sum256 Example.ParseKey Example.PublicKeyOf "wg0" 0 Example.net10
            "not a key") []) =
    Some (inr (Wrap (ErrOther "bad key") "Could not parse private key")) /\
  snd (run Example.envUp
         (New sha256.Sum256 Example.ParseKey Example.PublicKeyOf "wg0" 0 Example.net10
            "not a key") []) = [wgctrl_New].
Proof.
  destruct (New_results sha256.Sum256 Sum256_size Example.ParseKey Example.PublicKeyOf
              Cases.envNoClient "wg0" 0 Example.net10 "not a key" [] 8 isPrefix_net10)
    as (_ & A & _).
  destruct (New_results sha256.Sum256 Sum256_size Example.ParseKey Example.PublicKeyOf
              Example.envUp "wg0" 0 Example.net10 "not a key" [] 8 isPrefix_net10)
    as (T & _ & B & _).
  split; [exact (A _ eq_refl)|]. split; [exact (B _ _ eq_refl eq_refl)|]. exact T.
Defined.

Lemma New_then_use_witness :
  (exists r cfg,
     run Cases.envRefuse
         (AddPeers sha256.Sum256 Example.ParseIP PerLoop [Example.peerP] Example.self) [] =
       (Some (r, Example.self), [Client_ConfigureDevice (wgctrl.Handle 1) "wg0" cfg])) /\
  run Example.envUp
      (GetOverlayAddress sha256.Sum256 (PublicKey Example.self) Example.self) [] =
    (Some ({| net.IP := [10; 133; 226; 96]; net.Mask := [255; 255; 255; 255] |},
           Example.self), []).
Proof.
  assert (E : run Example.envUp
                (New sha256.Sum256 Example.ParseKey Example.PublicKeyOf "wg0" 0 Example.net10
                   Example.privText) [] = (Some (inl Example.self), [wgctrl_New]))
    by (vm_compute; reflexivity).
  destruct (New_then_use sha256.Sum256 Sum256_size Example.ParseIP Example.ParseKey
              Example.PublicKeyOf Example.envUp "wg0" 0 Example.net10 Example.privText []
              Example.self [wgctrl_New] E) as (A & _ & G).
  split; [exact (A PerLoop Cases.envRefuse [Example.peerP] [])|].
  exact (G Example.envUp []).
Defined.

(** ** [GetPeers] *)

(** X23. [GetPeers] makes one call, the device query. When the query fails
    it returns no records and the query's error as it is; otherwise it
    returns nil as error and one record for each peer of the device, in order,
    with the peer's public key, preshared key and keepalive interval, and with
    the printed address and the port of the peer's endpoint, or an empty
    address text and port 0 for a peer without endpoint. *)
Theorem GetPeers_result (IP_String : net.IP_t -> string) (env : Env) (s : State)
    (hist : list Event) :
  let dev := Client_Device (client s) (iface s) in
  snd (run env (GetPeers IP_String s) hist) = [dev] /\
  (forall err, env hist dev = inr err ->
     fst (run env (GetPeers IP_String s) hist) = Some (([], Some err), s)) /\
  (forall d, env hist dev = inl d ->
     exists ps,
       fst (run env (GetPeers IP_String s) hist) = Some ((ps, None), s) /\
       Forall2 (fun wp p =>
                  Peer.PublicKey p = wgtypes.Peer_PublicKey wp /\
                  Peer.PresharedKey p = wgtypes.Peer_PresharedKey wp /\
                  Peer.KeepaliveInterval p = wgtypes.Peer_PersistentKeepaliveInterval wp /\
                  match wgtypes.Peer_Endpoint wp with
                  | Some ep => Peer.IP p = IP_String (net.UDP_IP ep) /\
                               Peer.Port p = net.UDP_Port ep
                  | None => Peer.IP p = ""%string /\ Peer.Port p = 0
                  end)
               (wgtypes.Device_Peers d) ps).
Proof.
  cbv zeta. unfold GetPeers. simpl. repeat split.
  - destruct (env hist (Client_Device (client s) (iface s))); reflexivity.
  - intros err ->. reflexivity.
  - intros d ->. eexists. split; [reflexivity|].
    induction (wgtypes.Device_Peers d) as [|wp l IH]; simpl; constructor; [|exact IH].
    unfold fromWgtypesPeer. destruct (wgtypes.Peer_Endpoint wp); simpl; auto.
Qed.

Lemma GetPeers_result_witness :
  fst (run Cases.envDenied (GetPeers Cases.IP_String Example.self) []) =
    Some (([], Some (ErrOther "permission denied")), Example.self) /\
  exists ps,
    fst (run Cases.envPeers (GetPeers Cases.IP_String Example.self) []) =
      Some ((ps, None), Example.self) /\
    map Peer.IP ps = ["198.51.100.23"%string; ""%string] /\
    map Peer.Port ps = [51820; 0].
Proof.
  destruct (GetPeers_result Cases.IP_String Cases.envDenied Example.self []) as (_ & A & _).
  destruct (GetPeers_result Cases.IP_String Cases.envPeers Example.self []) as (_ & _ & B).
  split; [exact (A _ eq_refl)|].
  destruct (B _ eq_refl) as (ps & E & _). exists ps. split; [exact E|].
  vm_compute in E. injection E as <-. split; reflexivity.
Defined.

(** ** Prefix lengths that are not whole bytes *)

(** X24. Under a network prefix the derived address keeps the bits of the
    base not only over the prefix but up to the end of the byte the prefix
    ends in: only whole host bytes come from the digest. *)
Theorem getOverlayAddr_whole_bytes (Sum256 : list byte -> list byte)
    (Sum256_size : forall m, length (Sum256 m) = 32%nat)
    (p : net.IPNet) (ones : Z) (k : Key) :
  isPrefix p ones ->
  exists a,
    getOverlayAddr Sum256 p k = Some a /\
    forall j, 0 <= j < 8 * ((ones + 7) / 8) -> bit (net.IP a) j = bit (net.IP p) j.
Proof.
  intros HP. destruct (hostBytes_prefix p ones HP) as (HS & H1 & H2 & H3).
  destruct (getOverlayAddr_bytes Sum256 Sum256_size p k) as (a & E & L & M & N); try lia.
  exists a. split; [exact E|].
  intros j Hj. unfold bit. f_equal. apply nth_of_nth_error. rewrite N.
  destruct (Nat.leb_spec (length (net.IP p) - hostBytes p) (Z.to_nat (j / 8)));
    cbn [andb]; auto.
  exfalso.
  assert (B : Z.of_nat (length (net.IP p) - hostBytes p) = (ones + 7) / 8).
  { unfold hostBytes in *. rewrite HS in *. destruct HP as (Hb & Ho & _).
    unfold len in *. rewrite Z.quot_div_nonneg in * by lia.
    assert (Q1 : 0 <= (8 * Z.of_nat (length (net.IP p)) - ones) / 8)
      by (apply Z.div_pos; lia).
    pose proof (Z.div_mod (8 * Z.of_nat (length (net.IP p)) - ones) 8 ltac:(lia)) as D1.
    pose proof (Z.mod_pos_bound (8 * Z.of_nat (length (net.IP p)) - ones) 8 ltac:(lia)) as R1.
    pose proof (Z.div_mod (ones + 7) 8 ltac:(lia)) as D2.
    pose proof (Z.mod_pos_bound (ones + 7) 8 ltac:(lia)) as R2.
    generalize dependent ((8 * Z.of_nat (length (net.IP p)) - ones) / 8).
    generalize dependent ((8 * Z.of_nat (length (net.IP p)) - ones) mod 8).
    generalize dependent ((ones + 7) / 8). generalize dependent ((ones + 7) mod 8).
    intros. lia. }
  assert (0 <= j / 8) by (apply Z.div_pos; lia).
  assert (j / 8 < (ones + 7) / 8) by (apply Z.div_lt_upper_bound; lia).
  lia.
Qed.

Lemma getOverlayAddr_whole_bytes_witness :
  exists a,
    getOverlayAddr sha256.Sum256 Cases.net10_12 Example.keyA = Some a /\
    forall j, 0 <= j < 16 -> bit (net.IP a) j = bit [10; 0; 0; 0] j.
Proof.
  assert (P : isPrefix Cases.net10_12 12).
  { unfold isPrefix; simpl. repeat split; try lia; left; reflexivity. }
  exact (getOverlayAddr_whole_bytes sha256.Sum256 Sum256_size Cases.net10_12 12
           Example.keyA P).
Defined.
